(** * AI Job Hunter: feature extraction, fit scoring and the job cache

    A shallow embedding of the three helper modules of the repository,
    [resume_parser.py], [ai_assistant.py] and [scraper.py], and the
    properties of them that the specification states.

    Conventions of the embedding.
    - A Python [str] is a [string]; the regular-expression engine works on
      its list of characters.  The character classes are those of ASCII
      text: for code points above 127 Python consults the Unicode database,
      which is outside the model, and the statements that read a text
      character by character are about the texts for which [str.isascii]
      holds.
    - Python exceptions are the [Raise] results of an error monad.
    - The matcher of the [re] module is a backtracking matcher.  It is
      modelled by the list of all the ways a pattern can match at a
      position, in the order in which backtracking tries them; the match
      that [re] reports is the first one of the list.
    - Python floats are IEEE-754 binary64 numbers ([spec_float] at
      precision 53), every operation rounded to nearest even.
    - The cache file is modelled by what [json.load] makes of it. *)

From Stdlib Require Import ZArith QArith Qround Qminmax Ascii String.
From Stdlib Require Import Floats.SpecFloat.
From stdpp Require Import base tactics option list sorting gmap strings.

Local Open Scope Z_scope.

(** ** Exceptions *)

Inductive exn : Type :=
| ValueError
| TypeError
| AttributeError
| ZeroDivisionError
| OverflowError
| OSError
| JSONDecodeError
| RequestException
| HTTPError.

Global Instance exn_eq_dec : EqDecision exn.
Proof. solve_decision. Defined.

Inductive result (A : Type) : Type :=
| Ok (a : A)
| Raise (e : exn).
Arguments Ok {A} a.
Arguments Raise {A} e.

Global Instance result_eq_dec {A} `{EqDecision A} : EqDecision (result A).
Proof. solve_decision. Defined.

Definition rbind {A B} (m : result A) (f : A → result B) : result B :=
  match m with
  | Ok a => f a
  | Raise e => Raise e
  end.

Notation "x ←! m ;; k" := (rbind m (fun x => k))
  (at level 100, m at next level, right associativity).

Fixpoint rmapM {A B} (f : A → result B) (l : list A) : result (list B) :=
  match l with
  | [] => Ok []
  | x :: l' => y ←! f x ;; ys ←! rmapM f l' ;; Ok (y :: ys)
  end.

(** ** Characters *)

Module Chars.

Definition code (c : ascii) : N := N_of_ascii c.

Definition between (lo hi : N) (c : ascii) : bool :=
  ((lo <=? code c) && (code c <=? hi))%N.

(** [\d] on ASCII text; these are also the digits [int] reads there. *)
Definition is_digit (c : ascii) : bool := between 48 57 c.

Definition is_upper (c : ascii) : bool := between 65 90 c.
Definition is_lower (c : ascii) : bool := between 97 122 c.

(** [\w] on ASCII text: letters, digits and the underscore. *)
Definition is_word (c : ascii) : bool :=
  is_digit c || is_upper c || is_lower c || (code c =? 95)%N.

(** [\s] on ASCII text: the characters below 128 for which
    [str.isspace] holds, that is tab, newline, vertical tab, form feed,
    carriage return, the four separators 28 to 31 and the space. *)
Definition is_space (c : ascii) : bool :=
  between 9 13 c || between 28 32 c.

(** One character of [str.lower] on ASCII text. *)
Definition to_lower (c : ascii) : ascii :=
  if is_upper c then ascii_of_N (code c + 32) else c.

Definition digit_value (c : ascii) : Z := Z.of_N (code c) - 48.

End Chars.

(** [str.lower] on ASCII text *)
Definition lower (s : list ascii) : list ascii := Chars.to_lower <$> s.

(** ** The regular expressions of the [re] module *)

Module Regex.

Inductive regex : Type :=
| Empty
| Lit (c : ascii)
| Digit
| Space
| WordBoundary
| Seq (r1 r2 : regex)
| Alt (r1 r2 : regex)
| Opt (r : regex)
| Star (r : regex)
| Plus (r : regex)
| Group (i : nat) (r : regex).

(** A position in the subject: the character before it (none at the
    start of the text), the text from it on, and the groups captured on
    the way to it, the latest first. *)
Record mstate : Type := MState {
  prev : option ascii;
  rest : list ascii;
  caps : list (nat * list ascii)
}.

Definition word_opt (o : option ascii) : bool :=
  match o with
  | Some c => Chars.is_word c
  | None => false
  end.

(** [\b]: exactly one of the two neighbours is a word character. *)
Definition at_boundary (st : mstate) : bool :=
  xorb (word_opt (prev st)) (word_opt (head (rest st))).

Definition step (p : ascii → bool) (st : mstate) : list mstate :=
  match rest st with
  | c :: s => if p c then [MState (Some c) s (caps st)] else []
  | [] => []
  end.

Definition consumed (st st' : mstate) : list ascii :=
  take (length (rest st) - length (rest st')) (rest st).

Definition close_group (i : nat) (st st' : mstate) : mstate :=
  MState (prev st') (rest st') ((i, consumed st st') :: caps st').

(** Greedy repetition: one more round of the body first, stopping here
    last.  A round that consumes nothing is not repeated.  The fuel is
    the length of the remaining text, which no repetition can exceed. *)
Fixpoint repeat_greedy (body : mstate → list mstate) (fuel : nat)
    (st : mstate) : list mstate :=
  match fuel with
  | O => [st]
  | S n =>
      (st' ← body st;
       if (length (rest st') <? length (rest st))%nat
       then repeat_greedy body n st' else [])
      ++ [st]
  end.

(** All matches of [r] that start at [st], in backtracking order. *)
Fixpoint rmatch (r : regex) (st : mstate) : list mstate :=
  match r with
  | Empty => [st]
  | Lit c => step (Ascii.eqb c) st
  | Digit => step Chars.is_digit st
  | Space => step Chars.is_space st
  | WordBoundary => if at_boundary st then [st] else []
  | Seq r1 r2 => st' ← rmatch r1 st; rmatch r2 st'
  | Alt r1 r2 => rmatch r1 st ++ rmatch r2 st
  | Opt r1 => rmatch r1 st ++ [st]
  | Star r1 => repeat_greedy (rmatch r1) (length (rest st)) st
  | Plus r1 =>
      st' ← rmatch r1 st;
      repeat_greedy (rmatch r1) (length (rest st')) st'
  | Group i r1 => close_group i st <$> rmatch r1 st
  end.

(** One attempt at one start position.  When [must_advance] is set, an
    empty match is rejected and the matcher backtracks. *)
Definition match_here (r : regex) (must_advance : bool) (st : mstate)
    : option mstate :=
  head (filter
          (λ st', negb (must_advance
                        && (length (rest st') =? length (rest st))%nat)
                  = true)
          (rmatch r st)).

(** The scan of [re.search]: the first start position with a match.
    The result is the text at the start of the match and the state at
    its end. *)
Fixpoint search_from (r : regex) (must_advance : bool)
    (p : option ascii) (s : list ascii) : option (list ascii * mstate) :=
  match match_here r must_advance (MState p s []) with
  | Some st' => Some (s, st')
  | None =>
      match s with
      | [] => None
      | c :: s' => search_from r false (Some c) s'
      end
  end.

Definition re_search (r : regex) (text : list ascii) : option mstate :=
  snd <$> search_from r false None text.

(** The text of group [i] of a match, empty when the group took no part. *)
Fixpoint lookup_group (i : nat) (cs : list (nat * list ascii)) : list ascii :=
  match cs with
  | [] => []
  | (j, w) :: cs' => if (j =? i)%nat then w else lookup_group i cs'
  end.

Definition group (i : nat) (m : mstate) : list ascii :=
  lookup_group i (caps m).

(** [re.findall]: scan, report, go on from the end of the match; after
    an empty match the next one must advance. *)
Fixpoint findall_loop (fuel : nat) (r : regex) (must_advance : bool)
    (p : option ascii) (s : list ascii) : list mstate :=
  match fuel with
  | O => []
  | S n =>
      match search_from r must_advance p s with
      | None => []
      | Some (s0, m) =>
          m :: findall_loop n r (length (rest m) =? length s0)%nat
                 (prev m) (rest m)
      end
  end.

Definition re_findall (r : regex) (text : list ascii) : list mstate :=
  findall_loop (2 * length text + 2) r false None text.

(** [re.escape] followed by compilation: the pattern that matches the
    word literally, character by character. *)
Definition re_escape (w : list ascii) : regex :=
  foldr (λ c r, Seq (Lit c) r) Empty w.

End Regex.

(** ** resume_parser.py *)

Module ResumeParser.
Import Regex.

Definition SKILL_KEYWORDS : list string :=
  [ "python"; "java"; "machine learning"; "ml"; "data science"; "sql";
    "react"; "javascript"; "node"; "c++"; "c#"; "aws"; "docker";
    "tensorflow"; "pytorch"; "nlp"; "excel"; "tableau" ].

Record features : Type := Features {
  skills : list string;
  experience : Z
}.

(** [r'\b' + re.escape(skill) + r'\b'] *)
Definition skill_pattern (skill : string) : regex :=
  Seq WordBoundary
    (Seq (re_escape (String.list_ascii_of_string skill)) WordBoundary).

Definition lits (w : string) : regex :=
  re_escape (String.list_ascii_of_string w).

(** [r'(\d+)(\+)?\s*(?:years?|yrs?)'], from its last part to the
    whole. *)
Definition xp_unit : regex :=
  Alt (Seq (lits "year") (Opt (Lit "s")))
      (Seq (lits "yr") (Opt (Lit "s"))).

Definition xp_space_unit : regex := Seq (Star Space) xp_unit.

Definition xp_plus_space_unit : regex :=
  Seq (Opt (Group 2 (Lit "+"))) xp_space_unit.

Definition xp_pattern : regex :=
  Seq (Group 1 (Plus Digit)) xp_plus_space_unit.

Definition skill_detected (text_lower : list ascii) (skill : string) : bool :=
  bool_decide (is_Some (re_search (skill_pattern skill) text_lower)).

(** [sys.get_int_max_str_digits()]: the interpreter's limit on the number
    of digits of a string that [int] converts; the program leaves it at
    its default. *)
Definition int_max_str_digits : Z := 4300.

(** [int] of a captured string: the value of a non-empty run of decimal
    digits, a [ValueError] when the run has more digits than the limit
    (leading zeros count); anything else is treated as a [ValueError]. *)
Definition py_int (ds : list ascii) : result Z :=
  match ds with
  | [] => Raise ValueError
  | _ =>
      if forallb Chars.is_digit ds
      then
        if int_max_str_digits <? Z.of_nat (length ds)
        then Raise ValueError
        else Ok (foldl (λ acc d, 10 * acc + Chars.digit_value d) 0 ds)
      else Raise ValueError
  end.

(** [max(..., default=0)] *)
Definition py_max_default (l : list Z) (d : Z) : Z :=
  match l with
  | [] => d
  | x :: l' => foldl Z.max x l'
  end.

Definition extract_resume_features (text : string) : result features :=
  let text_lower := lower (String.list_ascii_of_string text) in
  let detected_skills :=
    merge_sort String.le
      (elements
         (list_to_set (filter (λ skill, skill_detected text_lower skill = true)
                         SKILL_KEYWORDS) : gset string)) in
  let xp_matches := re_findall xp_pattern text_lower in
  xs ←! rmapM (λ m, py_int (group 1 m)) xp_matches ;;
  Ok (Features detected_skills (py_max_default xs 0)).

End ResumeParser.

(** ** Python numbers: [int] and [float] *)

Module PyNum.

Definition prec : Z := 53.
Definition emax : Z := 1024.

Inductive num : Type :=
| NInt (z : Z)
| NFloat (f : spec_float).

Global Instance spec_float_eq_dec : EqDecision spec_float.
Proof. solve_decision. Defined.
Global Instance num_eq_dec : EqDecision num.
Proof. solve_decision. Defined.

(** [float(z)]: the nearest double; too large an integer raises. *)
Definition float_of_int (z : Z) : result spec_float :=
  match binary_normalize prec emax z 0 false with
  | S754_infinity _ => Raise OverflowError
  | f => Ok f
  end.

(** [a / b] on two integers is the correctly rounded quotient of the
    two integers themselves, whatever their size. *)
Definition exact (z : Z) : spec_float :=
  match z with
  | Z0 => S754_zero false
  | Zpos p => S754_finite false p 0
  | Zneg p => S754_finite true p 0
  end.

Definition int_truediv (a b : Z) : result spec_float :=
  if b =? 0 then Raise ZeroDivisionError
  else if a =? 0 then Ok (S754_zero (b <? 0))
  else match SFdiv prec emax (exact a) (exact b) with
       | S754_infinity _ => Raise OverflowError
       | f => Ok f
       end.

Definition to_float (x : num) : result spec_float :=
  match x with
  | NInt z => float_of_int z
  | NFloat f => Ok f
  end.

Definition py_mul (x y : num) : result num :=
  match x, y with
  | NInt a, NInt b => Ok (NInt (a * b))
  | _, _ =>
      fx ←! to_float x ;; fy ←! to_float y ;;
      Ok (NFloat (SFmul prec emax fx fy))
  end.

Definition py_add (x y : num) : result num :=
  match x, y with
  | NInt a, NInt b => Ok (NInt (a + b))
  | _, _ =>
      fx ←! to_float x ;; fy ←! to_float y ;;
      Ok (NFloat (SFadd prec emax fx fy))
  end.

(** Comparison of an integer with a float is exact in Python: both
    sides are scaled to integers. *)
Definition int_lt_float (a : Z) (f : spec_float) : bool :=
  match f with
  | S754_nan => false
  | S754_infinity s => negb s
  | S754_zero _ => a <? 0
  | S754_finite s m e =>
      let v := if s then Z.neg m else Z.pos m in
      match e with
      | Zneg k => Z.shiftl a (Z.pos k) <? v
      | _ => a <? Z.shiftl v e
      end
  end.

Definition float_lt_int (f : spec_float) (a : Z) : bool :=
  match f with
  | S754_nan => false
  | S754_infinity s => s
  | S754_zero _ => 0 <? a
  | S754_finite s m e =>
      let v := if s then Z.neg m else Z.pos m in
      match e with
      | Zneg k => v <? Z.shiftl a (Z.pos k)
      | _ => Z.shiftl v e <? a
      end
  end.

Definition py_lt (x y : num) : bool :=
  match x, y with
  | NInt a, NInt b => a <? b
  | NInt a, NFloat f => int_lt_float a f
  | NFloat f, NInt b => float_lt_int f b
  | NFloat f, NFloat g => SFltb f g
  end.

(** [min(x, y)]: the first argument unless the second is smaller. *)
Definition py_min (x y : num) : num := if py_lt y x then y else x.

(** [int(x)]: truncation toward zero. *)
Definition py_int_of (x : num) : result Z :=
  match x with
  | NInt z => Ok z
  | NFloat S754_nan => Raise ValueError
  | NFloat (S754_infinity _) => Raise OverflowError
  | NFloat (S754_zero _) => Ok 0
  | NFloat (S754_finite s m e) =>
      let v := match e with
               | Zneg k => Z.shiftr (Z.pos m) (Z.pos k)
               | _ => Z.shiftl (Z.pos m) e
               end in
      Ok (if s then - v else v)
  end.

End PyNum.

(** ** ai_assistant.py: the score computed by [analyze_job_fit] *)

Module Assistant.
Import ResumeParser PyNum.

(** The local variables of [analyze_job_fit] once the score is known;
    the prompt built from them and the call of the model are not part
    of the embedding. *)
Record fit : Type := Fit {
  common_skills : gset string;
  missing_skills : gset string;
  xp_user : Z;
  xp_job : Z;
  fit_percent : Z
}.

(** [len(job_features["skills"]) or 1] *)
Definition skills_denominator (job_features : features) : Z :=
  let n := Z.of_nat (length (skills job_features)) in
  if n =? 0 then 1 else n.

(** [job_features["experience"] if job_features["experience"] else 1] *)
Definition xp_denominator (job_features : features) : Z :=
  if experience job_features =? 0 then 1 else experience job_features.

(** Lines 55 to 58: [int((len(common_skills) / (len(...) or 1)) * 70
    + min(xp_user / xp_job, 1) * 30)], the operands evaluated from left
    to right. *)
Definition fit_percent_value (n_common n_skills xp_user xp_job : Z)
    : result Z :=
  coverage ←! int_truediv n_common n_skills ;;
  a ←! py_mul (NFloat coverage) (NInt 70) ;;
  ratio ←! int_truediv xp_user xp_job ;;
  b ←! py_mul (py_min (NFloat ratio) (NInt 1)) (NInt 30) ;;
  s ←! py_add a b ;;
  py_int_of s.

Definition score_features (res_features job_features : features)
    : result fit :=
  let common := (list_to_set (skills res_features) : gset string)
                  ∩ list_to_set (skills job_features) in
  let missing := (list_to_set (skills job_features) : gset string)
                   ∖ list_to_set (skills res_features) in
  let xu := experience res_features in
  let xj := xp_denominator job_features in
  p ←! fit_percent_value (Z.of_nat (size common))
         (skills_denominator job_features) xu xj ;;
  Ok (Fit common missing xu xj p).

Definition analyze_job_fit (resume_text job_description : string)
    : result fit :=
  res_features ←! extract_resume_features resume_text ;;
  job_features ←! extract_resume_features job_description ;;
  score_features res_features job_features.

(** The score as the specification words it, over the rationals:
    [floor(|matched| / max(|job.skills|, 1) * 70
           + min(resume.experience / max(job.experience, 1), 1) * 30)]. *)
Definition spec_fit_percent (matched job_skills resume_xp job_xp : Z) : Z :=
  Qfloor (Qmake matched (Z.to_pos (Z.max job_skills 1)) * 70
          + Qmin (Qmake resume_xp (Z.to_pos (Z.max job_xp 1))) 1 * 30)%Q.

(** The specification's score of two feature sets. *)
Definition spec_fit (res_features job_features : features) : Z :=
  spec_fit_percent
    (Z.of_nat (size ((list_to_set (skills res_features) : gset string)
                       ∩ list_to_set (skills job_features))))
    (Z.of_nat (length (skills job_features)))
    (experience res_features) (experience job_features).

(** The score alone. *)
Definition job_fit_percent (res_features job_features : features) : result Z :=
  f ←! score_features res_features job_features ;; Ok (fit_percent f).

End Assistant.

(** ** scraper.py *)

Module Scraper.

(** What [json] reads and writes, and what the functions return. *)
#[local] Unset Elimination Schemes.
Inductive value : Type :=
| PNone
| PBool (b : bool)
| PInt (z : Z)
| PFloat (f : spec_float)
| PStr (s : string)
| PList (l : list value)
| PDict (d : list (string * value)).
#[local] Set Elimination Schemes.

Definition truthy (v : value) : bool :=
  match v with
  | PNone => false
  | PBool b => b
  | PInt z => negb (z =? 0)
  | PFloat (S754_zero _) => false
  | PFloat _ => true
  | PStr s => negb (String.eqb s "")
  | PList l => negb (bool_decide (l = []))
  | PDict d => negb (bool_decide (d = []))
  end.

(** [a or b] *)
Definition py_or (a b : value) : value := if truthy a then a else b.

Fixpoint assoc (k : string) (d : list (string * value)) : option value :=
  match d with
  | [] => None
  | (k', v) :: d' => if String.eqb k' k then Some v else assoc k d'
  end.

(** [v.get(k, dflt)], an [AttributeError] on anything but a dict. *)
Definition py_get (v : value) (k : string) (dflt : value) : result value :=
  match v with
  | PDict d => Ok (default dflt (assoc k d))
  | _ => Raise AttributeError
  end.

(** The elements a [for] loop visits. *)
Definition py_iter (v : value) : result (list value) :=
  match v with
  | PList l => Ok l
  | PStr s => Ok ((λ c, PStr (String c EmptyString)) <$> String.list_ascii_of_string s)
  | PDict d => Ok ((λ kv, PStr kv.1) <$> d)
  | _ => Raise TypeError
  end.

(** [v[:8]] *)
Definition slice8 (v : value) : result value :=
  match v with
  | PList l => Ok (PList (take 8 l))
  | PStr s => Ok (PStr (String.substring 0 8 s))
  | _ => Raise TypeError
  end.

(** [v + jobs] for a list [jobs] *)
Definition py_add_list (v : value) (jobs : list value) : result value :=
  match v with
  | PList l => Ok (PList (l ++ jobs))
  | _ => Raise TypeError
  end.

Definition DATA_PATH : string := "data/scraped_jobs.json".
Definition JSEARCH_URL : string := "https://jsearch.p.rapidapi.com/search".

(** The file at [DATA_PATH]: absent, present but not to be opened or not
    JSON, or holding the JSON text of a value.  [json.dump] followed by
    [json.load] gives the value back. *)
Inductive file : Type :=
| Missing
| Unreadable
| Holds (v : value).

(** The GET request that [fetch_jobs] sends. *)
Record request : Type := Request {
  rq_key : string;
  rq_query : string;
  rq_page : Z;
  rq_num_pages : Z;
  rq_limit : Z;
  rq_remote_jobs_only : option string;
  rq_date_posted : option string
}.

(** What becomes of a request: [requests.get] raises, [raise_for_status]
    raises, [resp.json()] raises, or the body parses to a value. *)
Inductive http_outcome : Type :=
| GetFailed
| StatusFailed
| NotJson
| Body (v : value).

(** Everything outside the program that the module reads or writes. *)
Record world : Type := World {
  rapidapi_key : option string;
  randint_1_3 : Z;
  jsearch : request → http_outcome;
  cache : file;
  can_write : bool
}.

Definition set_cache (f : file) (w : world) : world :=
  World (rapidapi_key w) (randint_1_3 w) (jsearch w) f (can_write w).

(** [os.path.exists(DATA_PATH)] *)
Definition path_exists (w : world) : bool :=
  match cache w with
  | Missing => false
  | _ => true
  end.

(** [open(DATA_PATH, 'r')] followed by [json.load] *)
Definition json_load (w : world) : result value :=
  match cache w with
  | Missing => Raise OSError
  | Unreadable => Raise JSONDecodeError
  | Holds v => Ok v
  end.

Definition job (title company location salary description url posted_date : value)
    : value :=
  PDict [ ("title", title); ("company", company); ("location", location);
          ("salary", salary); ("description", description); ("url", url);
          ("posted_date", posted_date) ]%string.

Definition demo_jobs : value :=
  PList
    [ job (PStr "Demo Data Scientist") (PStr "Sample Analytics") (PStr "Pune")
          (PStr "15-20 LPA")
          (PStr "Work on ML pipelines, SQL, Python, and stakeholder presentations. Growth opportunity.")
          (PStr "https://example.com/apply-demo-ds") (PStr "2025-10-30");
      job (PStr "Demo AI Engineer") (PStr "Demo AI Innovations") (PStr "Remote")
          (PStr "12-18 LPA")
          (PStr "Develop, tune, and deploy deep learning models in production for Indian clients.")
          (PStr "https://example.com/apply-demo-ai") (PStr "2025-10-29") ].

(** The body of the [try] of [load_cache_or_demo]: [Some v] when it
    returns [v], [None] when it falls through. *)
Definition load_cache_try (w : world) : result (option value) :=
  if path_exists w then
    jobs ←! json_load w ;;
    if truthy jobs then v ←! slice8 jobs ;; Ok (Some v) else Ok None
  else Ok None.

Definition load_cache_or_demo (w : world) : result value :=
  match load_cache_try w with
  | Ok (Some v) => Ok v
  | Ok None => Ok demo_jobs
  | Raise _ => Ok demo_jobs
  end.

(** [save_jobs]: make the directory, read what is there (nothing when
    the file is absent or does not load), open the file for writing,
    which empties it, and dump the concatenation. *)
Definition save_jobs (jobs : list value) (w : world) : result unit * world :=
  if can_write w then
    let existing :=
      if path_exists w then
        match json_load w with
        | Ok v => v
        | Raise _ => PList []
        end
      else PList [] in
    match py_add_list existing jobs with
    | Ok v => (Ok tt, set_cache (Holds v) w)
    | Raise e => (Raise e, set_cache Unreadable w)
    end
  else (Raise OSError, w).

(** One round of the loop over [jobs_data]. *)
Definition parse_job (j : value) : result value :=
  title ←! py_get j "job_title" PNone ;;
  company ←! py_get j "employer_name" PNone ;;
  city ←! py_get j "job_city" PNone ;;
  country ←! py_get j "job_country" PNone ;;
  state ←! py_get j "job_state" PNone ;;
  salary ←! py_get j "job_min_salary" PNone ;;
  description ←! py_get j "job_description" PNone ;;
  link ←! py_get j "job_apply_link" PNone ;;
  glink ←! py_get j "job_google_link" PNone ;;
  posted ←! py_get j "job_posted_at_datetime_utc" PNone ;;
  stamp ←! py_get j "job_posted_at_timestamp" PNone ;;
  Ok (job title company (py_or (py_or city country) state)
        (py_or salary (PStr "")) description (py_or link glink)
        (py_or posted stamp)).

Definition str_truthy (o : option string) : bool :=
  match o with
  | Some s => negb (String.eqb s "")
  | None => false
  end.

Definition build_request (key query : string) (location : option string)
    (remote : bool) (date_posted : option string) (limit : Z) (w : world)
    : request :=
  let combined_query :=
    match location with
    | Some l => if String.eqb l "" then query else query +:+ " in " +:+ l
    | None => query
    end in
  Request key combined_query (randint_1_3 w) 1 limit
    (if remote then Some "true" else None)
    (if str_truthy date_posted then date_posted else None).

(** The body of the [try] of [fetch_jobs]. *)
Definition fetch_try (rq : request) (w : world) : result value :=
  match jsearch w rq with
  | GetFailed => Raise RequestException
  | StatusFailed => Raise HTTPError
  | NotJson => Raise JSONDecodeError
  | Body v => py_get v "data" (PList [])
  end.

Definition fetch_jobs (query : string) (location : option string)
    (remote : bool) (date_posted : option string) (limit : Z) (w : world)
    : result value * world :=
  match rapidapi_key w with
  | None => (load_cache_or_demo w, w)
  | Some key =>
      if String.eqb key "" then (load_cache_or_demo w, w)
      else
        match fetch_try (build_request key query location remote
                           date_posted limit w) w with
        | Raise _ => (load_cache_or_demo w, w)
        | Ok jobs_data =>
            match (items ←! py_iter jobs_data ;; rmapM parse_job items) with
            | Raise e => (Raise e, w)
            | Ok parsed_jobs =>
                if truthy (PList parsed_jobs) then
                  match save_jobs parsed_jobs w with
                  | (Ok _, w') => (Ok (PList parsed_jobs), w')
                  | (Raise e, w') => (Raise e, w')
                  end
                else (Ok (PList []), w)
            end
        end
  end.

End Scraper.

(** ** Reference descriptions used in the statements *)

Module Describe.
Import Regex ResumeParser.

Fixpoint take_while (p : ascii → bool) (s : list ascii) : list ascii :=
  match s with
  | c :: s' => if p c then c :: take_while p s' else []
  | [] => []
  end.

Fixpoint drop_while (p : ascii → bool) (s : list ascii) : list ascii :=
  match s with
  | c :: s' => if p c then drop_while p s' else s
  | [] => []
  end.

(** The character before the position reached after reading [w]. *)
Definition last_char (p : option ascii) (w : list ascii) : option ascii :=
  match last w with
  | Some c => Some c
  | None => p
  end.

(** The states a greedy run over the class [p] leaves, longest first. *)
Fixpoint greedy_states (p : ascii → bool) (q : option ascii)
    (s : list ascii) (g : list (nat * list ascii)) : list mstate :=
  match s with
  | c :: s' =>
      if p c then greedy_states p (Some c) s' g ++ [MState q s g]
      else [MState q s g]
  | [] => [MState q s g]
  end.

(** What is left of [s] after its prefix [w]. *)
Fixpoint strip_prefix (w s : list ascii) : option (list ascii) :=
  match w, s with
  | [], _ => Some s
  | c :: w', d :: s' => if Ascii.eqb c d then strip_prefix w' s' else None
  | _ :: _, [] => None
  end.

(** A whole-word occurrence of [w] in [a ++ w ++ b]: a word boundary
    before [w] and one after it. *)
Definition whole_word (a w b : list ascii) : bool :=
  xorb (word_opt (last a)) (word_opt (head (w ++ b)))
  && xorb (word_opt (last_char (last a) w)) (word_opt (head b)).

Definition chars (s : string) : list ascii := String.list_ascii_of_string s.

(** The matches of [xp_pattern] at the head of [s], read off the text:
    the whole run of digits, a [+] if there is one, the whole run of
    white space, then the unit. *)
Definition xp_after_space (q : option ascii) (s : list ascii)
    (g : list (nat * list ascii)) : list mstate :=
  rmatch xp_unit
    (MState (last_char q (take_while Chars.is_space s))
       (drop_while Chars.is_space s) g).

Definition xp_after_digits (q : option ascii) (s : list ascii)
    (g : list (nat * list ascii)) : list mstate :=
  match s with
  | c :: t =>
      if Ascii.eqb "+" c
      then xp_after_space (Some c) t ((2%nat, [c]) :: g)
      else xp_after_space q s g
  | [] => xp_after_space q [] g
  end.

Definition xp_matches_at (q : option ascii) (s : list ascii) : list mstate :=
  match take_while Chars.is_digit s with
  | [] => []
  | ds => xp_after_digits (last_char q ds) (drop_while Chars.is_digit s)
            [(1%nat, ds)]
  end.

(** The four spellings of the unit. *)
Definition xp_units : list (list ascii) :=
  [chars "years"; chars "year"; chars "yrs"; chars "yr"].

(** The value of a run of decimal digits. *)
Definition digits_value (ds : list ascii) : Z :=
  foldl (λ acc d, 10 * acc + Chars.digit_value d) 0 ds.





(** [int] converts a run of digits this long. *)
Definition convertible (ds : list ascii) : bool :=
  negb (int_max_str_digits <? Z.of_nat (length ds)).

(** [str.isascii] *)
Definition is_ascii (t : list ascii) : bool :=
  forallb (λ c, (Chars.code c <? 128)%N) t.




(** The years found in a lowered text. *)
Definition xp_values (text_lower : list ascii) : list Z :=
  (λ m, digits_value (group 1 m)) <$> re_findall xp_pattern text_lower.

(** The detected skills, before they are put in order. *)
Definition detected (text_lower : list ascii) : gset string :=
  list_to_set (filter (λ skill, skill_detected text_lower skill = true)
                 SKILL_KEYWORDS).

(** The two summands of the score and their sum, apart. *)
Definition skill_part (c n : Z) : result PyNum.num :=
  coverage ←! PyNum.int_truediv c n ;;
  PyNum.py_mul (PyNum.NFloat coverage) (PyNum.NInt 70).

Definition xp_part (u j : Z) : result PyNum.num :=
  ratio ←! PyNum.int_truediv u j ;;
  PyNum.py_mul (PyNum.py_min (PyNum.NFloat ratio) (PyNum.NInt 1)) (PyNum.NInt 30).

Definition total (a b : result PyNum.num) : result Z :=
  a' ←! a ;; b' ←! b ;; s ←! PyNum.py_add a' b' ;; PyNum.py_int_of s.

(** [p] is the exact score [e] or one below it, and a percentage. *)
Definition within (e p : Z) : bool :=
  (e - 1 <=? p) && (p <=? e) && (0 <=? p) && (p <=? 100).

Definition or_1 (n : Z) : Z := if n =? 0 then 1 else n.

Definition upto (n : nat) : list Z := Z.of_nat <$> seq 0 (S n).

(** A fraction in lowest terms. *)
Definition reduce (a b : Z) : Z * Z :=
  let g := Z.gcd a b in (a / g, b / g).

(** The pair of years that stands for [u] against [j]: 2 against 1 when
    [u] exceeds [j], the ratio in lowest terms otherwise. *)
Definition xp_rep (u j : Z) : Z * Z :=
  if j <? u then (2, 1) else reduce u j.

Definition keep_skill (c n : Z) : bool :=
  (0 <=? c) && (c <=? n) && (1 <=? n) && (n <=? 18) && (Z.gcd c n =? 1).

Definition keep_xp (B : nat) (u j : Z) : bool :=
  (0 <=? u) && (u <=? Z.of_nat B) && (1 <=? j) && (j <=? Z.of_nat B)
  && (((u <=? j) && (Z.gcd u j =? 1)) || ((u =? 2) && (j =? 1))).

(** The exact ratios of the specification. *)
Definition spec_coverage (c n : Z) : Q := Qmake c (Z.to_pos (Z.max n 1)).
Definition spec_ratio (u j : Z) : Q :=
  Qmin (Qmake u (Z.to_pos (Z.max j 1))) 1.

(** Every pair of counts of skills has the summand and the exact
    coverage of its fraction in lowest terms. *)
Definition check_skill_reps : bool :=
  forallb (λ n,
    forallb (λ c,
      let '(c0, n0) := reduce c (or_1 n) in
      keep_skill c0 n0
      && bool_decide (skill_part c (or_1 n) = skill_part c0 n0)
      && Qeq_bool (spec_coverage c n) (spec_coverage c0 n0))
      (upto (Z.to_nat n)))
    (upto 18).

(** Every pair of years up to [B] has the summand and the exact ratio
    of the pair that stands for it. *)
Definition check_xp_reps (B : nat) : bool :=
  forallb (λ u,
    forallb (λ j,
      let '(u0, j0) := xp_rep u (or_1 j) in
      keep_xp B u0 j0
      && bool_decide (xp_part u (or_1 j) = xp_part u0 j0)
      && Qeq_bool (spec_ratio u j) (spec_ratio u0 j0))
      (upto B))
    (upto B).

Definition score_ok (c n u j : Z) (a b : result PyNum.num) : bool :=
  match total a b with
  | Ok p => within (Qfloor (spec_coverage c n * 70 + spec_ratio u j * 30)) p
  | Raise _ => false
  end.

Definition xp_rows (B : nat) : list (Z * Z * result PyNum.num) :=
  u ← upto B; j ← upto B;
  if keep_xp B u j then [(u, j, xp_part u j)] else [].

(** The check of the score of every pair of fractions in lowest terms. *)
Definition check_cells (B : nat) : bool :=
  let rows := xp_rows B in
  forallb (λ n,
    forallb (λ c,
      if keep_skill c n then
        let a := skill_part c n in
        forallb (λ '(u, j, b), score_ok c n u j a b) rows
      else true)
      (upto (Z.to_nat n)))
    (upto 18).

Definition check_scores (B : nat) : bool :=
  check_skill_reps && check_xp_reps B && check_cells B.

Definition no_zero_division {A} (r : result A) : Prop :=
  r ≠ Raise ZeroDivisionError.

(** Eleven of the fifteen skills asked for, two years against nine. *)
Definition resume_11 : features :=
  Features ["aws"; "docker"; "java"; "javascript"; "nlp"; "node"; "python";
            "pytorch"; "react"; "sql"; "tensorflow"] 2.

Definition job_15 : features :=
  Features ["aws"; "data science"; "docker"; "excel"; "java"; "javascript";
            "ml"; "nlp"; "node"; "python"; "pytorch"; "react"; "sql";
            "tableau"; "tensorflow"] 9.

(** The example of the specification. *)
Definition resume_example : features := Features ["python"; "sql"] 5.
Definition job_example : features := Features ["python"; "sql"; "aws"] 3.

(** The credential is absent: not set, or set to the empty string. *)
Definition key_absent (w : Scraper.world) : bool :=
  match Scraper.rapidapi_key w with
  | None => true
  | Some key => String.eqb key ""
  end.

(** The request, the status check or the parsing of the body failed. *)
Definition http_failed (o : Scraper.http_outcome) : bool :=
  match o with
  | Scraper.Body _ => false
  | _ => true
  end.

(** A store that has never been written, or holds nothing that loads. *)
Definition empty_store (w : Scraper.world) : Prop :=
  Scraper.cache w = Scraper.Missing
  ∨ Scraper.cache w = Scraper.Unreadable
  ∨ Scraper.cache w = Scraper.Holds (Scraper.PList []).

(** Sample worlds and records. *)
Definition numbered_job (i : Z) : Scraper.value :=
  Scraper.job (Scraper.PStr "Engineer") (Scraper.PInt i) Scraper.PNone
    (Scraper.PStr "") Scraper.PNone Scraper.PNone Scraper.PNone.

Definition nine_jobs : list Scraper.value := numbered_job <$> upto 8.

Definition fresh_world : Scraper.world :=
  Scraper.World None 1 (λ _, Scraper.GetFailed) Scraper.Missing true.

Definition nine_cached_world : Scraper.world :=
  Scraper.World None 1 (λ _, Scraper.GetFailed)
    (Scraper.Holds (Scraper.PList nine_jobs)) true.

Definition no_results_world : Scraper.world :=
  Scraper.World (Some "secret") 2
    (λ _, Scraper.Body (Scraper.PDict [("data"%string, Scraper.PList [])]))
    (Scraper.Holds (Scraper.PList nine_jobs)) true.

End Describe.

(** ** app.py: the function and the blocks that use the scraper *)

Module Callers.
Import Scraper.

(** [len(v)] *)
Definition py_len (v : value) : result Z :=
  match v with
  | PList l => Ok (Z.of_nat (length l))
  | PStr s => Ok (Z.of_nat (String.length s))
  | PDict d => Ok (Z.of_nat (length d))
  | _ => Raise TypeError
  end.

(** Where [v[:k]] stops in a sequence of [n] elements: a negative [k]
    counts from the end. *)
Definition slice_stop (k : Z) (n : nat) : nat :=
  if k <? 0 then Z.to_nat (Z.of_nat n + k) else Z.to_nat k.

(** [v[:k]] *)
Definition py_slice_to (k : Z) (v : value) : result value :=
  match v with
  | PList l => Ok (PList (take (slice_stop k (length l)) l))
  | PStr s => Ok (PStr (String.substring 0 (slice_stop k (String.length s)) s))
  | _ => Raise TypeError
  end.

(** [get_cached_meta] (app.py, app1.py and app2.py; [_cache_meta] in
    app3.py).  [mtime] is the modification time of the file as
    [strftime] formats it. *)
Definition get_cached_meta (mtime : string) (w : world) : result (Z * string) :=
  if path_exists w then
    let arr :=
      match json_load w with
      | Ok v => v
      | Raise _ => PList []
      end in
    n ←! py_len arr ;; Ok (n, mtime)
  else Ok (0, "N/A"%string).

(** The block that fetches live jobs: [jobs = fetch_jobs(...)], then
    [load_cache_or_demo()] when [jobs] is falsy, and again
    [load_cache_or_demo()] in the handler of [except Exception]. *)
Definition live_jobs (q : string) (loc : option string) (remote : bool)
    (date_posted : option string) (limit : Z) (w : world)
    : result value * world :=
  let '(fetched, w') := fetch_jobs q loc remote date_posted limit w in
  match (jobs ←! fetched ;;
         if truthy jobs then Ok jobs else load_cache_or_demo w') with
  | Ok jobs => (Ok jobs, w')
  | Raise _ => (load_cache_or_demo w', w')
  end.

(** The block that shows cached jobs: [all_jobs[:results_limit]] of the
    file when it exists and loads, [load_cache_or_demo()] otherwise. *)
Definition cached_jobs (results_limit : Z) (w : world) : result value :=
  if path_exists w then
    match (all_jobs ←! json_load w ;; py_slice_to results_limit all_jobs) with
    | Ok jobs => Ok jobs
    | Raise _ => load_cache_or_demo w
    end
  else load_cache_or_demo w.

End Callers.

(** ** ai_assistant.py: the prompts *)

Module Prompts.

(** [sep.join(l)] *)
Fixpoint py_join (sep : string) (l : list string) : string :=
  match l with
  | [] => ""
  | x :: l' =>
      match l' with
      | [] => x
      | _ => x +:+ sep +:+ py_join sep l'
      end
  end.

(** [", ".join(skills) or "general technical and behavioral skills"] *)
Definition skill_str (skills : list string) : string :=
  let joined := py_join ", " skills in
  if String.eqb joined "" then "general technical and behavioral skills"
  else joined.

Definition nl : string := String "010" EmptyString.

(** The two constant parts of the prompt of [enhance_resume]. *)
Definition enhance_head : string :=
  nl +:+ "You are a professional resume writer." +:+ nl
  +:+ "Optimize this resume for a **".

Definition enhance_body : string :=
  "** role." +:+ nl +:+ nl
  +:+ "- Keep existing experience details but rewrite bullet points for stronger impact." +:+ nl
  +:+ "- Add relevant modern industry keywords." +:+ nl
  +:+ "- Improve structure and phrasing to ATS standards." +:+ nl
  +:+ "- Keep tone concise and professional." +:+ nl +:+ nl
  +:+ "Resume:" +:+ nl.

(** The prompt that [enhance_resume] hands to [call_ollama]. *)
Definition enhance_resume_prompt (resume_text job_title : string) : string :=
  enhance_head +:+ job_title +:+ enhance_body
  +:+ String.substring 0 4000 resume_text +:+ nl.

End Prompts.

(** ** More reference descriptions *)

Module DescribeMore.
Import Regex ResumeParser Scraper Describe.

Definition is_dict (v : value) : bool :=
  match v with
  | PDict _ => true
  | _ => false
  end.

Definition is_list (v : value) : bool :=
  match v with
  | PList _ => true
  | _ => false
  end.

(** [None], a boolean or a number. *)
Definition is_scalar (v : value) : bool :=
  match v with
  | PNone | PBool _ | PInt _ | PFloat _ => true
  | _ => false
  end.



(** The entries of the vocabulary that end in a character that is not a
    word character, and the others. *)
Definition symbol_skills : list string := ["c++"; "c#"]%string.

Definition letter_skills : list string :=
  filter (λ s, s ∉ symbol_skills) SKILL_KEYWORDS.

(** Sample worlds. *)
Definition dict_cached_world : world :=
  World None 1 (λ _, GetFailed) (Holds (PDict [("jobs"%string, PList nine_jobs)])) true.

Definition null_cached_world : world :=
  World None 1 (λ _, GetFailed) (Holds PNone) true.

Definition raw_job : value :=
  PDict [("job_title", PStr "Data Scientist"); ("employer_name", PStr "Acme");
         ("job_country", PStr "IN"); ("job_min_salary", PInt 0);
         ("job_apply_link", PStr "https://example.com/apply")]%string.

Definition one_result_world : world :=
  World (Some "secret"%string) 3
    (λ _, Body (PDict [("data"%string, PList [raw_job])]))
    (Holds (PList nine_jobs)) true.

Definition null_data_world : world :=
  World (Some "secret"%string) 3
    (λ _, Body (PDict [("data"%string, PNone)]))
    (Holds (PList nine_jobs)) true.

End DescribeMore.

(** * Properties *)

#[local] Arguments Ascii.eqb : simpl never.

(** ** The matcher *)

Section matcher.
Import Regex Describe.

Lemma rmatch_Seq r1 r2 st : rmatch (Seq r1 r2) st = rmatch r1 st ≫= rmatch r2.
Proof. done. Qed.
Lemma rmatch_Alt r1 r2 st : rmatch (Alt r1 r2) st = rmatch r1 st ++ rmatch r2 st.
Proof. done. Qed.
Lemma rmatch_Opt r st : rmatch (Opt r) st = rmatch r st ++ [st].
Proof. done. Qed.
Lemma rmatch_Lit c st : rmatch (Lit c) st = step (Ascii.eqb c) st.
Proof. done. Qed.
Lemma rmatch_WordBoundary st :
  rmatch WordBoundary st = if at_boundary st then [st] else [].
Proof. done. Qed.
Lemma rmatch_Group i r st :
  rmatch (Group i r) st = close_group i st <$> rmatch r st.
Proof. done. Qed.
Lemma rmatch_Star_class p q s g (cls : regex) :
  (∀ st, rmatch cls st = step p st) →
  rmatch (Star cls) (MState q s g) = repeat_greedy (step p) (length s) (MState q s g).
Proof.
  intros Hcls. change (rmatch (Star cls) (MState q s g))
    with (repeat_greedy (rmatch cls) (length s) (MState q s g)).
  generalize (length s) (MState q s g). intros n. induction n as [|n IH]; [done|].
  intros st. simpl. rewrite Hcls. f_equal. apply list_bind_ext; [|done].
  intros st'. by rewrite IH.
Qed.

Lemma step_cons p q c s g :
  step p (MState q (c :: s) g)
  = if p c then [MState (Some c) s g] else [].
Proof. done. Qed.

Lemma step_nil p q g : step p (MState q [] g) = [].
Proof. done. Qed.

Lemma repeat_greedy_step p fuel q s g :
  (length s ≤ fuel)%nat →
  repeat_greedy (step p) fuel (MState q s g) = greedy_states p q s g.
Proof.
  revert q s. induction fuel as [|n IH]; intros q s Hlen.
  - destruct s; [done | simpl in Hlen; lia].
  - destruct s as [|c s]; simpl.
    + done.
    + rewrite step_cons. destruct (p c) eqn:Hp; simpl; [|done].
      rewrite app_nil_r.
      replace (length s <? S (length s))%nat with true
        by (symmetry; apply Nat.ltb_lt; lia).
      rewrite IH by (simpl in Hlen; lia). done.
Qed.

Lemma take_drop_while p s : take_while p s ++ drop_while p s = s.
Proof. induction s as [|c s IH]; simpl; [done|]. destruct (p c); simpl; by f_equal. Qed.

Lemma take_while_all p s : forallb p (take_while p s) = true.
Proof.
  induction s as [|c s IH]; simpl; [done|].
  destruct (p c) eqn:Hp; simpl; [by rewrite Hp | done].
Qed.

Lemma drop_while_head p s c : head (drop_while p s) = Some c → p c = false.
Proof.
  induction s as [|d s IH]; simpl; [done|].
  destruct (p d) eqn:Hp; simpl; [done | by intros [= <-]].
Qed.


Lemma last_char_cons q c w : last_char q (c :: w) = last_char (Some c) w.
Proof.
  unfold last_char. destruct w as [|d w]; [done|]. simpl.
  destruct (last (d :: w)) eqn:E; [done|]. by apply last_None in E.
Qed.

Lemma last_char_app q w1 w2 :
  last_char q (w1 ++ w2) = last_char (last_char q w1) w2.
Proof.
  revert q. induction w1 as [|c w1 IH]; intros q; [done|].
  simpl. by rewrite !last_char_cons, IH.
Qed.

(** Where the continuation rejects every position that still has a
    character of the class ahead, only the longest run goes through. *)
Lemma greedy_commit {B} p (f : mstate → list B) q s g :
  (∀ q' c s', p c = true → f (MState q' (c :: s') g) = []) →
  greedy_states p q s g ≫= f
  = f (MState (last_char q (take_while p s)) (drop_while p s) g).
Proof.
  intros Hf. revert q. induction s as [|c s IH]; intros q; simpl.
  - by rewrite app_nil_r.
  - destruct (p c) eqn:Hp; simpl.
    + rewrite bind_app, IH. simpl.
      by rewrite (Hf q c s Hp), !app_nil_r, last_char_cons.
    + by rewrite app_nil_r.
Qed.

Lemma strip_prefix_Some w s s' : strip_prefix w s = Some s' ↔ s = w ++ s'.
Proof.
  revert s. induction w as [|c w IH]; intros s; simpl.
  - split; [by intros [= ->] | by intros ->].
  - destruct s as [|d s]; [done|].
    destruct (Ascii.eqb_spec c d) as [->|Hne].
    + rewrite IH. split; [by intros -> | by intros [= ->]].
    + split; [done | intros [= <- _]; done].
Qed.

Lemma strip_prefix_app w s : strip_prefix w (w ++ s) = Some s.
Proof. by apply strip_prefix_Some. Qed.

(** An escaped word matches itself and nothing else. *)
Lemma rmatch_escape w q s g :
  rmatch (re_escape w) (MState q s g)
  = match strip_prefix w s with
    | Some s' => [MState (last_char q w) s' g]
    | None => []
    end.
Proof.
  revert q s. induction w as [|c w IH]; intros q s; [done|].
  change (re_escape (c :: w)) with (Seq (Lit c) (re_escape w)).
  change (rmatch (Seq (Lit c) (re_escape w)) (MState q s g))
    with (step (Ascii.eqb c) (MState q s g) ≫= rmatch (re_escape w)).
  destruct s as [|d s]; [done|].
  rewrite step_cons. simpl. destruct (Ascii.eqb_spec c d) as [<-|]; [|done].
  rewrite bind_singleton, IH, last_char_cons. done.
Qed.

Lemma match_here_false r st : match_here r false st = head (rmatch r st).
Proof.
  unfold match_here. f_equal.
  induction (rmatch r st) as [|x l IH]; [done|].
  rewrite filter_cons_True by done. by f_equal.
Qed.

Lemma search_from_unfold r q s :
  search_from r false q s
  = match head (rmatch r (MState q s [])) with
    | Some m => Some (s, m)
    | None =>
        match s with
        | [] => None
        | c :: s' => search_from r false (Some c) s'
        end
    end.
Proof. destruct s; simpl; by rewrite match_here_false. Qed.

(** The scan reports the first match at the leftmost position that has
    one. *)
Lemma search_from_Some r q s t m :
  search_from r false q s = Some (t, m)
  ↔ ∃ a, s = a ++ t
      ∧ head (rmatch r (MState (last_char q a) t [])) = Some m
      ∧ ∀ a' t', s = a' ++ t' → (length a' < length a)%nat →
          rmatch r (MState (last_char q a') t' []) = [].
Proof.
  revert q. induction s as [|c s IH]; intros q; rewrite search_from_unfold.
  - split.
    + destruct (head (rmatch r (MState q [] []))) as [m'|] eqn:E; [|done].
      intros [= <- <-]. exists []. split_and!; [done|done|].
      intros a' t' _ Hlen. simpl in Hlen. lia.
    + intros (a & Hs & Hm & _). symmetry in Hs.
      apply app_eq_nil in Hs as [-> ->]. unfold last_char in Hm. simpl in Hm.
      by rewrite Hm.
  - split.
    + destruct (head (rmatch r (MState q (c :: s) []))) as [m'|] eqn:E.
      * intros [= <- <-]. exists []. split_and!; [done|done|].
        intros a' t' _ Hlen. simpl in Hlen. lia.
      * intros (a & -> & Hm & Hmin)%IH. exists (c :: a).
        rewrite last_char_cons. split_and!; [done|done|].
        intros [|c' a'] t' Hs Hlen.
        -- simpl in Hs. subst t'. by apply head_None in E.
        -- simpl in Hs. injection Hs as <- Hs. rewrite last_char_cons.
           apply Hmin; [done | simpl in Hlen; lia].
    + intros ([|c' a] & Hs & Hm & Hmin).
      * simpl in Hs. subst t. unfold last_char in Hm. simpl in Hm.
        by rewrite Hm.
      * simpl in Hs. injection Hs as <- Hs.
        assert (rmatch r (MState q (c :: s) []) = []) as ->.
        { apply (Hmin [] (c :: s)); [done|simpl; lia]. }
        simpl. apply IH. exists a. rewrite last_char_cons in Hm.
        split_and!; [done|done|].
        intros a' t' Hs' Hlen. specialize (Hmin (c :: a') t').
        rewrite last_char_cons in Hmin. apply Hmin; [by rewrite Hs'|simpl; lia].
Qed.

Lemma search_from_None r q s :
  search_from r false q s = None
  ↔ ∀ a t, s = a ++ t → rmatch r (MState (last_char q a) t []) = [].
Proof.
  revert q. induction s as [|c s IH]; intros q; rewrite search_from_unfold.
  - split.
    + destruct (head (rmatch r (MState q [] []))) as [m'|] eqn:E; [done|].
      intros _ a t Hs. symmetry in Hs. apply app_eq_nil in Hs as [-> ->].
      by apply head_None in E.
    + intros H. assert (rmatch r (MState q [] []) = []) as ->; [|done].
      by apply (H [] []).
  - split.
    + destruct (head (rmatch r (MState q (c :: s) []))) as [m'|] eqn:E; [done|].
      intros Hn [|c' a] t Hs.
      * simpl in Hs. subst t. by apply head_None in E.
      * simpl in Hs. injection Hs as <- Hs. rewrite last_char_cons.
        by apply (proj1 (IH _) Hn).
    + intros H. assert (rmatch r (MState q (c :: s) []) = []) as ->.
      { by apply (H [] (c :: s)). }
      simpl. apply IH.
      intros a t Hs. specialize (H (c :: a) t). rewrite last_char_cons in H.
      apply H. by rewrite Hs.
Qed.

Lemma search_from_is_Some r q s :
  is_Some (search_from r false q s)
  ↔ ∃ a t, s = a ++ t ∧ rmatch r (MState (last_char q a) t []) ≠ [].
Proof.
  split.
  - intros [[t m] (a & Hs & Hm & _)%search_from_Some].
    exists a, t. split; [done|]. intros E. by rewrite E in Hm.
  - intros (a & t & Hs & Hne).
    destruct (search_from r false q s) eqn:E; [by eexists|].
    exfalso. apply Hne. by apply (proj1 (search_from_None _ _ _) E).
Qed.

Lemma rmatch_Plus_class p q s g (cls : regex) :
  (∀ st, rmatch cls st = step p st) →
  rmatch (Plus cls) (MState q s g)
  = match s with
    | c :: s' => if p c then greedy_states p (Some c) s' g else []
    | [] => []
    end.
Proof.
  intros Hcls.
  change (rmatch (Plus cls) (MState q s g))
    with (rmatch cls (MState q s g)
          ≫= λ st', repeat_greedy (rmatch cls) (length (rest st')) st').
  rewrite Hcls. destruct s as [|c s]; [done|]. rewrite step_cons.
  destruct (p c); [|done]. rewrite bind_singleton. cbn [rest].
  rewrite <- (repeat_greedy_step p (length s)) by done.
  generalize (length s) (MState (Some c) s g). intros n.
  induction n as [|n IH]; [done|].
  intros st. simpl. rewrite Hcls. f_equal. apply list_bind_ext; [|done].
  intros st'. by rewrite IH.
Qed.

Lemma take_while_consumed p s :
  take (length s - length (drop_while p s)) s = take_while p s.
Proof.
  rewrite <- (take_drop_while p s) at 1 3.
  rewrite length_app, Nat.add_sub. by rewrite take_app_length.
Qed.

End matcher.

(** ** Skill detection *)

Section skill_detection.
Import Regex Describe ResumeParser.

Lemma rmatch_skill_pattern skill q s :
  rmatch (skill_pattern skill) (MState q s [])
  = if xorb (word_opt q) (word_opt (head s)) then
      match strip_prefix (chars skill) s with
      | Some s' =>
          if xorb (word_opt (last_char q (chars skill))) (word_opt (head s'))
          then [MState (last_char q (chars skill)) s' []] else []
      | None => []
      end
    else [].
Proof.
  unfold skill_pattern. fold (chars skill).
  rewrite rmatch_Seq, rmatch_WordBoundary. unfold at_boundary at 1.
  cbn [prev rest].
  destruct (xorb (word_opt q) (word_opt (head s))); [|done].
  rewrite bind_singleton, rmatch_Seq, rmatch_escape.
  destruct (strip_prefix (chars skill) s) as [s'|]; [|done].
  by rewrite bind_singleton, rmatch_WordBoundary.
Qed.

(** The scan finds a match exactly when the word occurs with a word
    boundary on both sides. *)
Lemma search_skill_iff skill q s :
  is_Some (search_from (skill_pattern skill) false q s)
  ↔ ∃ a b, s = a ++ chars skill ++ b
      ∧ xorb (word_opt (last_char q a)) (word_opt (head (chars skill ++ b)))
        && xorb (word_opt (last_char (last_char q a) (chars skill)))
             (word_opt (head b)) = true.
Proof.
  rewrite search_from_is_Some. split.
  - intros (a & t & -> & Hne). rewrite rmatch_skill_pattern in Hne.
    destruct (xorb (word_opt (last_char q a)) (word_opt (head t))) eqn:E1;
      [|done].
    destruct (strip_prefix (chars skill) t) as [b|] eqn:E2; [|done].
    apply strip_prefix_Some in E2 as ->.
    destruct (xorb (word_opt (last_char (last_char q a) (chars skill)))
                (word_opt (head b))) eqn:E3; [|done].
    exists a, b. by rewrite E1.
  - intros (a & b & -> & [E1 E3]%andb_true_iff).
    exists a, (chars skill ++ b). split; [done|].
    by rewrite rmatch_skill_pattern, E1, strip_prefix_app, E3.
Qed.

(** Detection is whole-word occurrence in the lowered text. *)
Lemma skill_detected_iff text_lower skill :
  skill_detected text_lower skill = true
  ↔ ∃ a b, text_lower = a ++ chars skill ++ b
           ∧ whole_word a (chars skill) b = true.
Proof.
  unfold skill_detected, re_search. rewrite bool_decide_eq_true.
  rewrite fmap_is_Some, search_skill_iff. unfold whole_word.
  split; intros (a & b & Hs & Hb); exists a, b; split; try done.
  - unfold last_char at 1 3 in Hb. by destruct (last a).
  - unfold last_char at 1 3. by destruct (last a).
Qed.

End skill_detection.

(** ** The experience pattern *)

Section experience_pattern.
Import Regex Describe ResumeParser.

Lemma digit_not_plus c : Chars.is_digit c = true → Ascii.eqb "+" c = false.
Proof. by destruct c as [[] [] [] [] [] [] [] []]. Qed.
Lemma digit_not_space c : Chars.is_digit c = true → Chars.is_space c = false.
Proof. by destruct c as [[] [] [] [] [] [] [] []]. Qed.
Lemma digit_not_y c : Chars.is_digit c = true → Ascii.eqb "y" c = false.
Proof. by destruct c as [[] [] [] [] [] [] [] []]. Qed.
Lemma space_not_y c : Chars.is_space c = true → Ascii.eqb "y" c = false.
Proof. by destruct c as [[] [] [] [] [] [] [] []]. Qed.

(** The unit starts with the letter y. *)
Lemma xp_unit_needs_y q c s g :
  Ascii.eqb "y" c = false → rmatch xp_unit (MState q (c :: s) g) = [].
Proof.
  intros Hc. unfold xp_unit, lits.
  rewrite rmatch_Alt, !rmatch_Seq, !rmatch_escape.
  cbn [String.list_ascii_of_string strip_prefix]. by rewrite Hc.
Qed.

Lemma xp_unit_nil q g : rmatch xp_unit (MState q [] g) = [].
Proof. done. Qed.

Lemma rmatch_xp_space_unit q s g :
  rmatch xp_space_unit (MState q s g) = xp_after_space q s g.
Proof.
  unfold xp_space_unit. rewrite rmatch_Seq.
  rewrite (rmatch_Star_class Chars.is_space) by done.
  rewrite repeat_greedy_step by done.
  apply greedy_commit. intros q' c s' Hc.
  by apply xp_unit_needs_y, space_not_y.
Qed.

Lemma xp_after_space_needs c q s g :
  Chars.is_space c = false → Ascii.eqb "y" c = false →
  xp_after_space q (c :: s) g = [].
Proof.
  intros Hs Hy. unfold xp_after_space. simpl. rewrite Hs.
  by apply xp_unit_needs_y.
Qed.

Lemma rmatch_xp_plus_space_unit q s g :
  rmatch xp_plus_space_unit (MState q s g) = xp_after_digits q s g.
Proof.
  unfold xp_plus_space_unit, xp_after_digits.
  rewrite rmatch_Seq, rmatch_Opt, rmatch_Group, rmatch_Lit, bind_app.
  rewrite bind_singleton, !rmatch_xp_space_unit.
  destruct s as [|c s]; [done|]. rewrite step_cons.
  destruct (Ascii.eqb_spec "+" c) as [<-|Hne].
  - rewrite list_fmap_bind, bind_singleton. cbn [compose].
    unfold close_group, consumed. cbn [prev rest caps length].
    replace (S (length s) - length s)%nat with 1%nat by lia.
    rewrite rmatch_xp_space_unit.
    rewrite (xp_after_space_needs "+") by done. by rewrite app_nil_r.
  - done.
Qed.

Lemma xp_after_digits_rejects_digit q c s g :
  Chars.is_digit c = true → xp_after_digits q (c :: s) g = [].
Proof.
  intros Hc. unfold xp_after_digits. rewrite (digit_not_plus c Hc).
  apply xp_after_space_needs; auto using digit_not_space, digit_not_y.
Qed.

(** The matches of the pattern at a position, read off the text. *)
Lemma rmatch_xp_pattern q s :
  rmatch xp_pattern (MState q s []) = xp_matches_at q s.
Proof.
  unfold xp_pattern. rewrite rmatch_Seq, rmatch_Group, list_fmap_bind.
  rewrite (rmatch_Plus_class Chars.is_digit) by done.
  unfold xp_matches_at. destruct s as [|c s]; [done|].
  cbn [take_while drop_while]. destruct (Chars.is_digit c) eqn:Hc; [|done].
  rewrite greedy_commit.
  - cbn [compose]. unfold close_group, consumed. cbn [prev rest caps].
    rewrite rmatch_xp_plus_space_unit.
    pose proof (take_while_consumed Chars.is_digit (c :: s)) as Hcons.
    cbn [take_while drop_while] in Hcons. rewrite Hc in Hcons.
    by rewrite Hcons, last_char_cons.
  - intros q' c' s' Hc'. cbn [compose]. unfold close_group. cbn [prev rest caps].
    rewrite rmatch_xp_plus_space_unit.
    by apply xp_after_digits_rejects_digit.
Qed.

Lemma unit_alternative_inv w q s g m :
  m ∈ rmatch (Seq (lits w) (Opt (Lit "s"))) (MState q s g) →
  caps m = g
  ∧ (s = chars w ++ "s"%char :: rest m ∨ s = chars w ++ rest m).
Proof.
  unfold lits. fold (chars w). rewrite rmatch_Seq, rmatch_escape.
  destruct (strip_prefix (chars w) s) as [s'|] eqn:E;
    [|by intros ?%elem_of_nil].
  apply strip_prefix_Some in E as ->.
  rewrite bind_singleton, rmatch_Opt, rmatch_Lit.
  intros [Hm|Hm]%elem_of_app.
  - destruct s' as [|c s']; [by apply elem_of_nil in Hm|].
    rewrite step_cons in Hm.
    destruct (Ascii.eqb_spec "s" c) as [<-|]; [|by apply elem_of_nil in Hm].
    apply list_elem_of_singleton in Hm as ->. auto.
  - apply list_elem_of_singleton in Hm as ->. auto.
Qed.


Lemma xp_unit_inv q s g m :
  m ∈ rmatch xp_unit (MState q s g) →
  caps m = g ∧ ∃ u, u ∈ xp_units ∧ s = u ++ rest m.
Proof.
  unfold xp_unit. rewrite rmatch_Alt.
  intros [[Hg [Hs|Hs]]%unit_alternative_inv|[Hg [Hs|Hs]]%unit_alternative_inv]%elem_of_app;
    (split; [done|]).
  - exists (chars "years"). split; [set_solver|]. by rewrite Hs.
  - exists (chars "year"). split; [set_solver|]. by rewrite Hs.
  - exists (chars "yrs"). split; [set_solver|]. by rewrite Hs.
  - exists (chars "yr"). split; [set_solver|]. by rewrite Hs.
Qed.



Lemma xp_after_space_inv q s g m :
  m ∈ xp_after_space q s g →
  caps m = g
  ∧ ∃ ws u, s = ws ++ u ++ rest m
            ∧ forallb Chars.is_space ws = true ∧ u ∈ xp_units.
Proof.
  unfold xp_after_space. intros [Hg (u & Hu & Hs)]%xp_unit_inv.
  split; [done|]. exists (take_while Chars.is_space s), u.
  split_and!; [|apply take_while_all|done].
  by rewrite <- Hs, take_drop_while.
Qed.


Lemma xp_after_digits_inv q s g m :
  m ∈ xp_after_digits q s g →
  ∃ plus ws u, s = plus ++ ws ++ u ++ rest m
    ∧ (plus = [] ∧ caps m = g
       ∨ plus = ["+"%char] ∧ caps m = (2%nat, ["+"%char]) :: g)
    ∧ forallb Chars.is_space ws = true ∧ u ∈ xp_units.
Proof.
  unfold xp_after_digits. destruct s as [|c t].
  - intros [Hg (ws & u & Hs & Hws & Hu)]%xp_after_space_inv.
    exists [], ws, u. auto.
  - destruct (Ascii.eqb_spec "+" c) as [<-|Hne].
    + intros [Hg (ws & u & Hs & Hws & Hu)]%xp_after_space_inv.
      exists ["+"%char], ws, u. split_and!; [by rewrite Hs|auto..].
    + intros [Hg (ws & u & Hs & Hws & Hu)]%xp_after_space_inv.
      exists [], ws, u. auto.
Qed.



(** Every match at a position is an occurrence that starts there, and
    its first group is the whole run of digits. *)
Lemma xp_matches_at_inv q s m :
  m ∈ xp_matches_at q s →
  ∃ plus ws u,
    s = take_while Chars.is_digit s ++ plus ++ ws ++ u ++ rest m
    ∧ take_while Chars.is_digit s ≠ []
    ∧ group 1 m = take_while Chars.is_digit s
    ∧ (plus = [] ∨ plus = ["+"%char])
    ∧ forallb Chars.is_space ws = true ∧ u ∈ xp_units.
Proof.
  unfold xp_matches_at.
  destruct (take_while Chars.is_digit s) as [|d ds] eqn:E;
    [by intros ?%elem_of_nil|].
  intros (plus & ws & u & Hs & Hplus & Hws & Hu)%xp_after_digits_inv.
  exists plus, ws, u. split_and!; [|done| |tauto|done|done].
  - by rewrite <- Hs, <- E, take_drop_while.
  - unfold group. by destruct Hplus as [[_ ->]|[_ ->]].
Qed.


End experience_pattern.

(** ** The scan of [re.findall] with the experience pattern *)

Section findall_experience.
Import Regex Describe ResumeParser.

Lemma digit_value_range c :
  Chars.is_digit c = true → 0 ≤ Chars.digit_value c ≤ 9.
Proof. destruct c as [[] [] [] [] [] [] [] []]; done. Qed.

Lemma foldl_digits acc ds :
  foldl (λ acc d, 10 * acc + Chars.digit_value d) acc ds
  = acc * 10 ^ Z.of_nat (length ds) + digits_value ds.
Proof.
  unfold digits_value. revert acc. induction ds as [|d ds IH]; intros acc.
  - simpl. lia.
  - cbn [foldl length]. rewrite IH, (IH (10 * 0 + _)).
    rewrite Nat2Z.inj_succ, Z.pow_succ_r by lia. lia.
Qed.

Lemma digits_value_app k k' :
  digits_value (k ++ k')
  = digits_value k * 10 ^ Z.of_nat (length k') + digits_value k'.
Proof. unfold digits_value at 1. by rewrite foldl_app, foldl_digits. Qed.

Lemma digits_value_nonneg ds :
  forallb Chars.is_digit ds = true → 0 ≤ digits_value ds.
Proof.
  induction ds as [|d ds IH] using rev_ind; [done|].
  rewrite forallb_app. intros [Hds [Hd _]%andb_true_iff]%andb_true_iff.
  rewrite digits_value_app. cbn [length]. unfold digits_value at 2. simpl.
  pose proof (digit_value_range d Hd). specialize (IH Hds). lia.
Qed.


Lemma xp_match_shorter q t m :
  m ∈ xp_matches_at q t → ∃ k, k ≠ [] ∧ t = k ++ rest m.
Proof.
  intros (plus & ws & u & Ht & Hne & _)%xp_matches_at_inv.
  exists (take_while Chars.is_digit t ++ plus ++ ws ++ u). split.
  - by intros [? _]%app_eq_nil.
  - rewrite Ht at 1. by rewrite <- !app_assoc.
Qed.

Lemma xp_match_advances q t m :
  m ∈ xp_matches_at q t → (length (rest m) =? length t)%nat = false.
Proof.
  intros (k & Hk & Ht)%xp_match_shorter. apply Nat.eqb_neq.
  apply (f_equal length) in Ht. rewrite length_app in Ht.
  destruct k; [done|simpl in Ht; lia].
Qed.

Lemma findall_loop_S n r b q s :
  findall_loop (S n) r b q s
  = match search_from r b q s with
    | None => []
    | Some (s0, m) =>
        m :: findall_loop n r (length (rest m) =? length s0)%nat
               (prev m) (rest m)
    end.
Proof. done. Qed.

(** Every reported match is an occurrence somewhere in the text. *)
Lemma findall_xp_sound fuel q s m :
  m ∈ findall_loop fuel xp_pattern false q s →
  ∃ a t q', s = a ++ t ∧ m ∈ xp_matches_at q' t.
Proof.
  revert q s. induction fuel as [|n IH]; intros q s;
    [by intros ?%elem_of_nil|].
  rewrite findall_loop_S.
  destruct (search_from xp_pattern false q s) as [[t m0]|] eqn:E;
    [|by intros ?%elem_of_nil].
  apply search_from_Some in E as (a & -> & Hm0 & _).
  rewrite rmatch_xp_pattern in Hm0. apply head_Some_elem_of in Hm0.
  rewrite (xp_match_advances _ _ _ Hm0).
  destruct (xp_match_shorter _ _ _ Hm0) as (k & Hk & Ht).
  intros [->|Hm]%elem_of_cons.
  - by exists a, t, (last_char q a).
  - apply IH in Hm as (a' & t' & q' & Hr & Hm).
    exists (a ++ k ++ a'), t', q'. split; [|done].
    rewrite Ht, Hr. by rewrite <- !app_assoc.
Qed.







End findall_experience.

(** ** [extract_resume_features] *)

Section extraction.
Import Regex Describe ResumeParser.

(** [int] on a run of digits: the value, or a [ValueError] past the
    limit. *)
Lemma py_int_digits ds :
  ds ≠ [] → forallb Chars.is_digit ds = true →
  py_int ds = if convertible ds then Ok (digits_value ds)
              else Raise ValueError.
Proof.
  intros Hne Hds. unfold py_int, convertible. destruct ds; [done|].
  rewrite Hds. by destruct (int_max_str_digits <? _).
Qed.

Lemma rmapM_py_int (items : list mstate) :
  (∀ m, m ∈ items →
     group 1 m ≠ [] ∧ forallb Chars.is_digit (group 1 m) = true) →
  rmapM (λ m, py_int (group 1 m)) items
  = if forallb (λ m, convertible (group 1 m)) items
    then Ok ((λ m, digits_value (group 1 m)) <$> items)
    else Raise ValueError.
Proof.
  induction items as [|m items IH]; intros H; [done|].
  cbn [rmapM forallb fmap list_fmap]. destruct (H m) as [Hne Hds]; [left|].
  rewrite (py_int_digits _ Hne Hds).
  destruct (convertible (group 1 m)); [|done]. cbn [rbind andb].
  rewrite IH by (intros m' Hm'; apply H; by right).
  by destruct (forallb _ items).
Qed.

Lemma findall_xp_digits text_lower m :
  m ∈ re_findall xp_pattern text_lower →
  group 1 m ≠ [] ∧ forallb Chars.is_digit (group 1 m) = true.
Proof.
  intros (a & t & q' & _ & Hm)%findall_xp_sound.
  apply xp_matches_at_inv in Hm as (_ & _ & _ & _ & Hne & -> & _).
  split; [done|apply take_while_all].
Qed.

(** What the function returns is the sorted detected skills and the
    largest of the years found; it raises [ValueError] instead when [int]
    refuses the digits of a match. *)
Lemma extract_resume_features_eq text :
  extract_resume_features text
  = if forallb (λ m, convertible (group 1 m))
         (re_findall xp_pattern (lower (chars text)))
    then Ok (Features
               (merge_sort String.le (elements (detected (lower (chars text)))))
               (py_max_default (xp_values (lower (chars text))) 0))
    else Raise ValueError.
Proof.
  unfold extract_resume_features. fold (chars text).
  rewrite rmapM_py_int by apply findall_xp_digits.
  by destruct (forallb _ _).
Qed.

Lemma extract_resume_features_inv text f :
  extract_resume_features text = Ok f →
  f = Features
        (merge_sort String.le (elements (detected (lower (chars text)))))
        (py_max_default (xp_values (lower (chars text))) 0).
Proof.
  rewrite extract_resume_features_eq. destruct (forallb _ _); [|done].
  by intros [= <-].
Qed.



















Lemma foldl_max_elem acc (l : list Z) : foldl Z.max acc l ∈ acc :: l.
Proof.
  revert acc. induction l as [|y l IH]; intros acc; simpl; [left|].
  specialize (IH (Z.max acc y)). apply elem_of_cons in IH as [IH|IH].
  - rewrite IH. destruct (Z.max_spec acc y) as [[_ ->]|[_ ->]]; [right|]; left.
  - by do 2 right.
Qed.


Lemma py_max_default_elem (l : list Z) d : l ≠ [] → py_max_default l d ∈ l.
Proof. destruct l as [|y l]; [done|]. intros _. apply foldl_max_elem. Qed.




Lemma xp_values_nonneg text_lower n : n ∈ xp_values text_lower → 0 ≤ n.
Proof.
  unfold xp_values. intros (m & -> & Hm)%list_elem_of_fmap.
  apply digits_value_nonneg. by apply findall_xp_digits in Hm as [_ ?].
Qed.

Lemma skills_elem text skill :
  skill ∈ merge_sort String.le (elements (detected (lower (chars text))))
  ↔ skill ∈ SKILL_KEYWORDS
    ∧ skill_detected (lower (chars text)) skill = true.
Proof.
  rewrite merge_sort_Permutation, elem_of_elements. unfold detected.
  rewrite elem_of_list_to_set, list_elem_of_filter. tauto.
Qed.

End extraction.

(** ** The claims about [extract_resume_features] *)

Section extraction_claims.
Import Regex Describe ResumeParser.

(** A skill is reported exactly when it is in the vocabulary and occurs
    in the lowered text between two word boundaries. *)
Lemma skill_reported_iff text skill f :
  extract_resume_features text = Ok f →
  skill ∈ skills f
  ↔ skill ∈ SKILL_KEYWORDS
    ∧ ∃ a b, lower (chars text) = a ++ chars skill ++ b
             ∧ whole_word a (chars skill) b = true.
Proof.
  intros ->%extract_resume_features_inv. cbn [skills].
  by rewrite skills_elem, skill_detected_iff.
Qed.

(** A word boundary after ["c++"] needs a word character right after the
    second [+]: the skill is reported only when it is glued to a letter,
    a digit or an underscore that follows it. *)
Lemma cpp_reported_iff text f :
  extract_resume_features text = Ok f →
  "c++" ∈ skills f
  ↔ ∃ a b, lower (chars text) = a ++ chars "c++" ++ b
           ∧ word_opt (last a) = false ∧ word_opt (head b) = true.
Proof.
  intros Hf. rewrite (skill_reported_iff _ _ _ Hf). split.
  - intros [_ (a & b & Ht & Hw)]. exists a, b. split; [done|].
    unfold whole_word in Hw. cbn in Hw.
    by destruct (word_opt (last a)), (word_opt (head b)).
  - intros (a & b & Ht & Ha & Hb). split.
    + unfold SKILL_KEYWORDS. set_solver.
    + exists a, b. split; [done|]. unfold whole_word. cbn.
      by rewrite Ha, Hb.
Qed.

(** C1, evaluated where the code departs from it: a text that contains
    ["c++"] (or ["c#"]) as a word of its own reports no skill at all,
    because [\b] after a [+] or a [#] asks for a word character next;
    ["reactive programming"] does not report ["react"]. *)
Theorem C1_cpp_not_detected :
  extract_resume_features "c++" = Ok (Features [] 0)
  ∧ extract_resume_features "Expert in C++ and C#." = Ok (Features [] 0)
  ∧ extract_resume_features "reactive programming" = Ok (Features [] 0).
Proof. by vm_compute. Qed.







End extraction_claims.


(** ** The fit score *)

Section score_table.
Import Describe ResumeParser PyNum Assistant.

Lemma fit_percent_value_parts c n u j :
  fit_percent_value c n u j = total (skill_part c n) (xp_part u j).
Proof.
  unfold fit_percent_value, total, skill_part, xp_part.
  destruct (int_truediv c n) as [cov|e]; [|done]. cbn [rbind].
  destruct (py_mul (NFloat cov) (NInt 70)) as [a|e]; [|done]. cbn [rbind].
  destruct (int_truediv u j) as [ratio|e]; [|done]. done.
Qed.

Lemma elem_of_upto N x : x ∈ upto N ↔ 0 ≤ x ≤ Z.of_nat N.
Proof.
  unfold upto. rewrite list_elem_of_fmap. split.
  - intros (k & -> & Hk). apply list_elem_of_In, in_seq in Hk. lia.
  - intros Hx. exists (Z.to_nat x). split; [lia|].
    apply list_elem_of_In, in_seq. lia.
Qed.

Lemma forallb_elem_of_true {A} (f : A → bool) l x :
  forallb f l = true → x ∈ l → f x = true.
Proof.
  intros Hl Hx. apply list_elem_of_In in Hx.
  by apply (proj1 (forallb_forall f l) Hl).
Qed.

Lemma elem_of_xp_rows B u j :
  keep_xp B u j = true → (u, j, xp_part u j) ∈ xp_rows B.
Proof.
  intros Hk. unfold xp_rows. pose proof Hk as Hk'. unfold keep_xp in Hk'.
  apply list_elem_of_bind. exists u.
  split; [|apply elem_of_upto; lia]. apply list_elem_of_bind. exists j.
  split; [|apply elem_of_upto; lia]. rewrite Hk. left.
Qed.

Lemma spec_fit_percent_unfold c n u j :
  spec_fit_percent c n u j
  = Qfloor (spec_coverage c n * 70 + spec_ratio u j * 30).
Proof. done. Qed.

(** The three checks together cover every score in range. *)
Lemma check_scores_sound B c n u j :
  check_scores B = true →
  0 ≤ c ≤ n → n ≤ 18 → 0 ≤ u ≤ Z.of_nat B → 0 ≤ j ≤ Z.of_nat B →
  ∃ p, fit_percent_value c (or_1 n) u (or_1 j) = Ok p
       ∧ within (spec_fit_percent c n u j) p = true.
Proof.
  unfold check_scores.
  intros [[Hskill Hxp]%andb_true_iff Hcells]%andb_true_iff Hc Hn Hu Hj.
  (* the fraction of skills in lowest terms *)
  unfold check_skill_reps in Hskill.
  apply (forallb_elem_of_true _ _ n) in Hskill; [|apply elem_of_upto; lia].
  cbn beta in Hskill.
  apply (forallb_elem_of_true _ _ c) in Hskill; [|apply elem_of_upto; lia].
  cbn beta in Hskill. destruct (reduce c (or_1 n)) as [c0 n0].
  apply andb_true_iff in Hskill as [[Hk1 He1%bool_decide_eq_true]%andb_true_iff
                                     Hq1%Qeq_bool_iff].
  (* the pair of years that stands for [u] and [j] *)
  unfold check_xp_reps in Hxp.
  apply (forallb_elem_of_true _ _ u) in Hxp; [|by apply elem_of_upto].
  cbn beta in Hxp.
  apply (forallb_elem_of_true _ _ j) in Hxp; [|by apply elem_of_upto].
  cbn beta in Hxp. destruct (xp_rep u (or_1 j)) as [u0 j0].
  apply andb_true_iff in Hxp as [[Hk2 He2%bool_decide_eq_true]%andb_true_iff
                                  Hq2%Qeq_bool_iff].
  (* their score *)
  unfold check_cells in Hcells. cbn zeta in Hcells.
  pose proof Hk1 as Hk1'. unfold keep_skill in Hk1'.
  apply (forallb_elem_of_true _ _ n0) in Hcells; [|apply elem_of_upto; lia].
  cbn beta in Hcells.
  apply (forallb_elem_of_true _ _ c0) in Hcells; [|apply elem_of_upto; lia].
  cbn beta in Hcells. rewrite Hk1 in Hcells.
  pose proof (forallb_elem_of_true _ _ _ Hcells (elem_of_xp_rows B u0 j0 Hk2))
    as Hcell.
  cbn beta iota in Hcell. unfold score_ok in Hcell.
  rewrite fit_percent_value_parts, He1, He2.
  destruct (total _ _) as [p|e]; [|done]. exists p. split; [done|].
  rewrite spec_fit_percent_unfold.
  rewrite (Qfloor_comp _ (spec_coverage c0 n0 * 70 + spec_ratio u0 j0 * 30));
    [done|].
  apply Qplus_comp; (apply Qmult_comp; [done|reflexivity]).
Qed.

Lemma check_scores_60 : check_scores 60 = true.
Proof. vm_cast_no_check (eq_refl true). Qed.

End score_table.

(** ** The claims about the fit score *)

Section fit_claims.
Import Describe ResumeParser PyNum Assistant.

Lemma int_truediv_no_zero_division a b :
  b ≠ 0 → no_zero_division (int_truediv a b).
Proof.
  intros Hb. unfold no_zero_division, int_truediv.
  destruct (Z.eqb_spec b 0); [done|]. destruct (a =? 0); [done|].
  by destruct (SFdiv _ _ _ _).
Qed.

Lemma float_of_int_no_zero_division z : no_zero_division (float_of_int z).
Proof. unfold no_zero_division, float_of_int. by destruct (binary_normalize _ _ _ _ _). Qed.

Lemma to_float_no_zero_division x : no_zero_division (to_float x).
Proof. destruct x; [apply float_of_int_no_zero_division|done]. Qed.

Lemma rbind_no_zero_division {A B} (m : result A) (f : A → result B) :
  no_zero_division m → (∀ a, no_zero_division (f a)) →
  no_zero_division (rbind m f).
Proof.
  intros Hm Hf. destruct m as [a|e]; [apply Hf|].
  unfold no_zero_division in *. simpl. intros [= ->]. done.
Qed.

Lemma py_mul_no_zero_division x y : no_zero_division (py_mul x y).
Proof.
  destruct x, y; try done; unfold py_mul;
    (apply rbind_no_zero_division; [apply to_float_no_zero_division|]; intros;
     apply rbind_no_zero_division; [apply to_float_no_zero_division|]; done).
Qed.

Lemma py_add_no_zero_division x y : no_zero_division (py_add x y).
Proof.
  destruct x, y; try done; unfold py_add;
    (apply rbind_no_zero_division; [apply to_float_no_zero_division|]; intros;
     apply rbind_no_zero_division; [apply to_float_no_zero_division|]; done).
Qed.

Lemma py_int_of_no_zero_division x : no_zero_division (py_int_of x).
Proof. destruct x as [z|[]]; done. Qed.

Lemma skills_denominator_nonzero job : skills_denominator job ≠ 0.
Proof. unfold skills_denominator. destruct (Z.eqb_spec (Z.of_nat (length (skills job))) 0); lia. Qed.

Lemma xp_denominator_nonzero job : xp_denominator job ≠ 0.
Proof. unfold xp_denominator. destruct (Z.eqb_spec (experience job) 0); lia. Qed.

(** C5: neither division of the score can divide by zero.  The divisor
    for the skills is 1 when the job lists no skill, and the coverage is
    then 0.0; the divisor for the years is 1 when the job asks for none. *)
Theorem C5_no_division_by_zero res_features job_features :
  skills_denominator job_features ≠ 0
  ∧ xp_denominator job_features ≠ 0
  ∧ no_zero_division (score_features res_features job_features)
  ∧ (experience job_features = 0 → xp_denominator job_features = 1)
  ∧ (skills job_features = [] →
       skills_denominator job_features = 1
       ∧ skill_part
           (Z.of_nat (size ((list_to_set (skills res_features) : gset string)
                              ∩ list_to_set (skills job_features))))
           (skills_denominator job_features)
         = Ok (NFloat (S754_zero false))).
Proof.
  split_and!.
  - apply skills_denominator_nonzero.
  - apply xp_denominator_nonzero.
  - unfold score_features. apply rbind_no_zero_division; [|done].
    unfold fit_percent_value.
    apply rbind_no_zero_division;
      [apply int_truediv_no_zero_division, skills_denominator_nonzero|intros].
    apply rbind_no_zero_division; [apply py_mul_no_zero_division|intros].
    apply rbind_no_zero_division;
      [apply int_truediv_no_zero_division, xp_denominator_nonzero|intros].
    apply rbind_no_zero_division; [apply py_mul_no_zero_division|intros].
    apply rbind_no_zero_division; [apply py_add_no_zero_division|intros].
    apply py_int_of_no_zero_division.
  - unfold xp_denominator. by intros ->.
  - intros Hs. unfold skills_denominator. rewrite Hs. split; [done|].
    cbn [list_to_set foldr]. rewrite (right_absorb_L ∅ (∩)). done.
Qed.

(** C4 does not hold as stated: with 11 of 15 skills matched and 2 years
    against 9 the exact score is 58, and the code returns 57. *)
Lemma C4_counterexample :
  job_fit_percent resume_11 job_15 = Ok 57
  ∧ spec_fit resume_11 job_15 = 58
  ∧ job_fit_percent resume_11 job_15 ≠ Ok (spec_fit resume_11 job_15).
Proof. by vm_compute. Qed.

(** The same two feature sets come from texts. *)
Lemma fit_of_texts_57 :
  (f ←! analyze_job_fit
          "Python, Java, SQL, React, JavaScript, Node, AWS, Docker, TensorFlow, PyTorch and NLP; 2 years."
          "We need Python, Java, SQL, React, JavaScript, Node, AWS, Docker, TensorFlow, PyTorch, NLP, Excel, Tableau, ML and data science, with 9 years of experience." ;;
   Ok (fit_percent f))
  = Ok 57.
Proof. by vm_compute. Qed.

Lemma job_skills_counts res_features job_features :
  NoDup (skills job_features) → skills job_features ⊆ SKILL_KEYWORDS →
  0 ≤ Z.of_nat (size ((list_to_set (skills res_features) : gset string)
                        ∩ list_to_set (skills job_features)))
    ≤ Z.of_nat (length (skills job_features))
  ∧ Z.of_nat (length (skills job_features)) ≤ 18.
Proof.
  intros Hnd Hsub. split.
  - split; [lia|]. apply inj_le.
    rewrite <- (size_list_to_set (C:=gset string) (skills job_features)) by done.
    apply subseteq_size, intersection_subseteq_r.
  - apply (NoDup_submseteq _ _ Hnd) in Hsub. apply submseteq_length in Hsub.
    simpl in Hsub. lia.
Qed.

(** C4 as amended: the score is the truncation of the double-precision
    value of the formula, every division, product and sum rounded; with at
    most 60 years on either side it is the exact score of the
    specification or one below it, and lies between 0 and 100.  On the
    example of the specification it is 76. *)
Theorem C4_fit_percent_rounded res_features job_features :
  NoDup (skills job_features) →
  skills job_features ⊆ SKILL_KEYWORDS →
  0 ≤ experience res_features ≤ 60 →
  0 ≤ experience job_features ≤ 60 →
  (∃ p, job_fit_percent res_features job_features = Ok p
        ∧ spec_fit res_features job_features - 1 ≤ p
          ≤ spec_fit res_features job_features
        ∧ 0 ≤ p ≤ 100)
  ∧ job_fit_percent resume_example job_example = Ok 76.
Proof.
  intros Hnd Hsub Hu Hj. split; [|by vm_compute].
  destruct (job_skills_counts res_features job_features Hnd Hsub) as [Hc Hn].
  unfold job_fit_percent, score_features, spec_fit.
  fold (or_1 (Z.of_nat (length (skills job_features)))).
  change (skills_denominator job_features)
    with (or_1 (Z.of_nat (length (skills job_features)))).
  change (xp_denominator job_features) with (or_1 (experience job_features)).
  destruct (check_scores_sound 60 _ _ (experience res_features)
              (experience job_features) check_scores_60 Hc Hn)
    as (p & -> & Hp); [lia|lia|].
  exists p. split; [done|]. unfold within in Hp. lia.
Qed.

Lemma C4_fit_percent_rounded_witness :
  (∃ p, job_fit_percent resume_example job_example = Ok p
        ∧ spec_fit resume_example job_example - 1 ≤ p
          ≤ spec_fit resume_example job_example
        ∧ 0 ≤ p ≤ 100)
  ∧ job_fit_percent resume_example job_example = Ok 76.
Proof.
  apply (C4_fit_percent_rounded resume_example job_example).
  - apply (bool_decide_unpack _). by vm_compute.
  - apply (bool_decide_unpack _). by vm_compute.
  - simpl. lia.
  - simpl. lia.
Defined.

End fit_claims.

(** ** The claims about the cache and the fetcher *)

Section scraper_claims.
Import Describe Scraper.

Lemma load_cache_or_demo_total w : ∃ v, load_cache_or_demo w = Ok v.
Proof.
  unfold load_cache_or_demo.
  destruct (load_cache_try w) as [[v|]|e]; by eexists.
Qed.

Lemma load_cache_empty_store w :
  empty_store w → load_cache_or_demo w = Ok demo_jobs.
Proof.
  unfold empty_store, load_cache_or_demo, load_cache_try, path_exists, json_load.
  by intros [->|[->| ->]].
Qed.

Lemma load_cache_cases w :
  load_cache_or_demo w = Ok demo_jobs
  ∨ ∃ v r, cache w = Holds v ∧ truthy v = true ∧ slice8 v = Ok r
           ∧ load_cache_or_demo w = Ok r.
Proof.
  unfold load_cache_or_demo, load_cache_try, path_exists, json_load.
  destruct (cache w) as [| |v]; [by left..|]. cbn [rbind].
  destruct (truthy v) eqn:Hv; [|by left].
  destruct (slice8 v) as [r|e] eqn:Hr; [|by left].
  right. by exists v, r.
Qed.

Lemma load_cache_list w l :
  cache w = Holds (PList l) → l ≠ [] →
  load_cache_or_demo w = Ok (PList (take 8 l)).
Proof.
  intros Hc Hl.
  unfold load_cache_or_demo, load_cache_try, path_exists, json_load.
  rewrite Hc. cbn [rbind truthy]. by rewrite bool_decide_eq_false_2.
Qed.

(** C7: [load_cache_or_demo] always returns; with the file missing,
    unreadable or holding the empty list it returns the two built-in
    records, and whatever else it returns is the head of a non-empty
    stored value. *)
Theorem C7_load_cache_or_demo_never_fails w :
  (∃ v, load_cache_or_demo w = Ok v)
  ∧ (empty_store w → load_cache_or_demo w = Ok demo_jobs)
  ∧ (load_cache_or_demo w = Ok demo_jobs
     ∨ ∃ v r, cache w = Holds v ∧ truthy v = true ∧ slice8 v = Ok r
              ∧ load_cache_or_demo w = Ok r)
  ∧ ∃ j1 j2, demo_jobs = PList [j1; j2].
Proof.
  split_and!.
  - apply load_cache_or_demo_total.
  - apply load_cache_empty_store.
  - apply load_cache_cases.
  - by eexists _, _.
Qed.

(** C10: the function has no parameter but the world it reads, and of a
    stored list of more than 8 records it returns the first 8. *)
Theorem C10_cache_capped_at_8 w l :
  cache w = Holds (PList l) → (8 < length l)%nat →
  load_cache_or_demo w = Ok (PList (take 8 l))
  ∧ length (take 8 l) = 8%nat.
Proof.
  intros Hc Hl. split.
  - apply load_cache_list; [done|]. intros ->. simpl in Hl. lia.
  - rewrite length_take. lia.
Qed.

Lemma C10_cache_capped_at_8_witness :
  load_cache_or_demo nine_cached_world = Ok (PList (take 8 nine_jobs))
  ∧ length (take 8 nine_jobs) = 8%nat.
Proof.
  apply (C10_cache_capped_at_8 nine_cached_world nine_jobs).
  - reflexivity.
  - vm_compute. lia.
Defined.

Lemma save_jobs_empty_store jobs w :
  can_write w = true → empty_store w →
  save_jobs jobs w = (Ok tt, set_cache (Holds (PList jobs)) w).
Proof.
  unfold empty_store, save_jobs, path_exists, json_load.
  by intros -> [->|[->| ->]].
Qed.

(** C6 does not hold as stated: nine records saved to a fresh store do
    not come back, the load returns eight of them. *)
Lemma C6_counterexample :
  (save_jobs nine_jobs fresh_world).1 = Ok tt
  ∧ load_cache_or_demo (save_jobs nine_jobs fresh_world).2
    = Ok (PList (take 8 nine_jobs))
  ∧ load_cache_or_demo (save_jobs nine_jobs fresh_world).2
    ≠ Ok (PList nine_jobs).
Proof. split_and!; [done|done|]. vm_compute. discriminate. Qed.

(** C6 as amended: records saved to a store that is missing, does not
    load or holds the empty list are stored in order and unchanged, and
    the load, which takes no limit, returns the first 8 of them: all of
    them when there are at least 1 and at most 8. *)
Theorem C6_round_trip_up_to_8 jobs w :
  can_write w = true → empty_store w → jobs ≠ [] →
  ∃ w', save_jobs jobs w = (Ok tt, w')
        ∧ cache w' = Holds (PList jobs)
        ∧ load_cache_or_demo w' = Ok (PList (take 8 jobs))
        ∧ ((length jobs ≤ 8)%nat → load_cache_or_demo w' = Ok (PList jobs)).
Proof.
  intros Hw He Hj. eexists. split; [by apply save_jobs_empty_store|].
  split; [done|].
  assert (load_cache_or_demo (set_cache (Holds (PList jobs)) w)
          = Ok (PList (take 8 jobs))) as Hload by by apply load_cache_list.
  split; [done|]. intros Hlen. by rewrite Hload, take_ge.
Qed.

Lemma C6_round_trip_up_to_8_witness :
  ∃ w', save_jobs [numbered_job 1; numbered_job 2] fresh_world = (Ok tt, w')
        ∧ cache w' = Holds (PList [numbered_job 1; numbered_job 2])
        ∧ load_cache_or_demo w'
          = Ok (PList (take 8 [numbered_job 1; numbered_job 2]))
        ∧ ((length [numbered_job 1; numbered_job 2] ≤ 8)%nat →
           load_cache_or_demo w'
           = Ok (PList [numbered_job 1; numbered_job 2])).
Proof.
  apply (C6_round_trip_up_to_8 [numbered_job 1; numbered_job 2] fresh_world).
  - reflexivity.
  - left. reflexivity.
  - discriminate.
Defined.

(** Saving nothing to a fresh store leaves the demo records to be loaded. *)
Lemma save_nothing_loads_demo w :
  can_write w = true → empty_store w →
  load_cache_or_demo (save_jobs [] w).2 = Ok demo_jobs.
Proof.
  intros Hw He. rewrite save_jobs_empty_store by done.
  apply load_cache_empty_store. by right; right.
Qed.

Lemma fetch_jobs_key_absent query location remote date_posted limit w :
  key_absent w = true →
  fetch_jobs query location remote date_posted limit w
  = (load_cache_or_demo w, w).
Proof.
  unfold key_absent, fetch_jobs. destruct (rapidapi_key w) as [key|]; [|done].
  by intros ->.
Qed.

Lemma fetch_jobs_try_raises query location remote date_posted limit w key e :
  rapidapi_key w = Some key →
  fetch_try (build_request key query location remote date_posted limit w) w
  = Raise e →
  fetch_jobs query location remote date_posted limit w
  = (load_cache_or_demo w, w).
Proof.
  intros Hk He. unfold fetch_jobs. rewrite Hk, He. by destruct (String.eqb _ _).
Qed.

(** A body that is not a JSON object fails in the same way. *)
Lemma fetch_jobs_body_not_dict query location remote date_posted limit w key v :
  rapidapi_key w = Some key →
  jsearch w (build_request key query location remote date_posted limit w)
  = Body v →
  (∀ d, v ≠ PDict d) →
  fetch_jobs query location remote date_posted limit w
  = (load_cache_or_demo w, w).
Proof.
  intros Hk Hb Hv. apply (fetch_jobs_try_raises _ _ _ _ _ _ key AttributeError);
    [done|].
  unfold fetch_try. rewrite Hb. destruct v; try done. by destruct (Hv d).
Qed.

(** C8: without the credential, or when the request, the status check or
    the parsing of the response fails, [fetch_jobs] returns what
    [load_cache_or_demo] returns, which is never an exception, and leaves
    the world as it was. *)
Theorem C8_fetch_failure_falls_back query location remote date_posted limit w :
  key_absent w = true
  ∨ (∃ key, rapidapi_key w = Some key
            ∧ http_failed
                (jsearch w (build_request key query location remote
                              date_posted limit w)) = true) →
  fetch_jobs query location remote date_posted limit w
  = (load_cache_or_demo w, w)
  ∧ ∃ v, load_cache_or_demo w = Ok v.
Proof.
  intros H. split; [|apply load_cache_or_demo_total].
  destruct H as [H|(key & Hk & Hf)].
  - by apply fetch_jobs_key_absent.
  - unfold fetch_jobs, fetch_try. rewrite Hk.
    destruct (String.eqb key ""); [done|].
    by destruct (jsearch w _).
Qed.

Lemma C8_fetch_failure_falls_back_witness :
  fetch_jobs "Data Scientist" (Some "Pune") false (Some "week") 5 fresh_world
  = (load_cache_or_demo fresh_world, fresh_world)
  ∧ ∃ v, load_cache_or_demo fresh_world = Ok v.
Proof.
  apply (C8_fetch_failure_falls_back
           "Data Scientist" (Some "Pune") false (Some "week") 5 fresh_world).
  left. reflexivity.
Defined.

(** C9: a fetch that succeeds with no result returns the empty list and
    leaves the world, the cache file in it, as it was. *)
Theorem C9_zero_results_returns_empty
    query location remote date_posted limit w key d :
  rapidapi_key w = Some key → key ≠ "" →
  jsearch w (build_request key query location remote date_posted limit w)
  = Body (PDict d) →
  default (PList []) (assoc "data" d) = PList [] →
  fetch_jobs query location remote date_posted limit w = (Ok (PList []), w).
Proof.
  intros Hk Hne Hb Hd. unfold fetch_jobs, fetch_try. rewrite Hk, Hb.
  destruct (String.eqb_spec key ""); [done|].
  cbn [py_get]. rewrite Hd. done.
Qed.

Lemma C9_zero_results_returns_empty_witness :
  fetch_jobs "Data Scientist" None true None 10 no_results_world
  = (Ok (PList []), no_results_world).
Proof.
  apply (C9_zero_results_returns_empty
           "Data Scientist" None true None 10 no_results_world "secret"
           [("data"%string, PList [])]).
  - reflexivity.
  - discriminate.
  - reflexivity.
  - reflexivity.
Defined.

(** With at least one record parsed the records go through [save_jobs]. *)
Lemma fetch_jobs_saves_results
    query location remote date_posted limit w key jobs_data items parsed :
  rapidapi_key w = Some key → key ≠ "" →
  fetch_try (build_request key query location remote date_posted limit w) w
  = Ok jobs_data →
  py_iter jobs_data = Ok items → rmapM parse_job items = Ok parsed →
  parsed ≠ [] →
  fetch_jobs query location remote date_posted limit w
  = match save_jobs parsed w with
    | (Ok _, w') => (Ok (PList parsed), w')
    | (Raise e, w') => (Raise e, w')
    end.
Proof.
  intros Hk Hne Ht Hi Hp Hnil. unfold fetch_jobs. rewrite Hk, Ht, Hi.
  destruct (String.eqb_spec key ""); [done|]. cbn [rbind]. rewrite Hp.
  cbn [truthy]. by rewrite bool_decide_eq_false_2.
Qed.

End scraper_claims.

(** ** More about the cache and the fetcher *)

Section scraper_more.
Import Describe DescribeMore Scraper Callers.

Lemma set_cache_set_cache f g w : set_cache f (set_cache g w) = set_cache f w.
Proof. done. Qed.

Lemma save_jobs_list jobs l w :
  can_write w = true → cache w = Holds (PList l) →
  save_jobs jobs w = (Ok tt, set_cache (Holds (PList (l ++ jobs))) w).
Proof.
  intros Hw Hc. unfold save_jobs, path_exists, json_load. by rewrite Hw, Hc.
Qed.

(** [save_jobs] appends to the stored list, so that two calls store what
    one call with the two lists joined stores. *)
Theorem save_jobs_appends_and_composes a b l w :
  can_write w = true → cache w = Holds (PList l) →
  save_jobs a w = (Ok tt, set_cache (Holds (PList (l ++ a))) w)
  ∧ save_jobs b (save_jobs a w).2 = save_jobs (a ++ b) w.
Proof.
  intros Hw Hc. split; [by apply save_jobs_list|].
  rewrite (save_jobs_list a l w Hw Hc), (save_jobs_list (a ++ b) l w Hw Hc).
  cbn [snd]. rewrite (save_jobs_list b (l ++ a)) by done.
  by rewrite set_cache_set_cache, app_assoc.
Qed.

Lemma save_jobs_appends_and_composes_witness :
  save_jobs [numbered_job 9] nine_cached_world
  = (Ok tt, set_cache (Holds (PList (nine_jobs ++ [numbered_job 9])))
              nine_cached_world)
  ∧ save_jobs [numbered_job 10] (save_jobs [numbered_job 9] nine_cached_world).2
    = save_jobs ([numbered_job 9] ++ [numbered_job 10]) nine_cached_world.
Proof.
  apply (save_jobs_appends_and_composes
           [numbered_job 9] [numbered_job 10] nine_jobs nine_cached_world);
    reflexivity.
Defined.

Lemma load_cache_nonempty_list w l :
  cache w = Holds (PList l) → l ≠ [] →
  load_cache_or_demo w = Ok (PList (take 8 l)).
Proof.
  intros Hc Hl.
  unfold load_cache_or_demo, load_cache_try, path_exists, json_load.
  rewrite Hc. cbn [rbind truthy]. by rewrite bool_decide_eq_false_2.
Qed.

(** Once the cache holds 8 records or more, what [load_cache_or_demo]
    returns after a [save_jobs] is what it returned before: the 8 oldest
    records, none of the new ones. *)
Theorem load_after_save_returns_oldest jobs l w :
  can_write w = true → cache w = Holds (PList l) → (8 ≤ length l)%nat →
  load_cache_or_demo (save_jobs jobs w).2 = Ok (PList (take 8 l))
  ∧ load_cache_or_demo (save_jobs jobs w).2 = load_cache_or_demo w.
Proof.
  intros Hw Hc Hl.
  assert (l ≠ []) as Hne by (intros ->; simpl in Hl; lia).
  rewrite (save_jobs_list jobs l w Hw Hc). cbn [snd].
  rewrite (load_cache_nonempty_list _ (l ++ jobs)); [|done|].
  - rewrite take_app_le by done.
    by rewrite (load_cache_nonempty_list w l).
  - by intros [-> _]%app_eq_nil.
Qed.

Lemma load_after_save_returns_oldest_witness :
  load_cache_or_demo (save_jobs [numbered_job 9] nine_cached_world).2
  = Ok (PList (take 8 nine_jobs))
  ∧ load_cache_or_demo (save_jobs [numbered_job 9] nine_cached_world).2
    = load_cache_or_demo nine_cached_world.
Proof.
  apply (load_after_save_returns_oldest [numbered_job 9] nine_jobs
           nine_cached_world); [reflexivity|reflexivity|].
  vm_compute. lia.
Defined.

(** When the file holds JSON that is not a list, [save_jobs] raises
    [TypeError] after it has emptied the file: what was stored is lost,
    and [load_cache_or_demo] then returns the demo records. *)
Theorem save_jobs_destroys_non_list jobs v w :
  can_write w = true → cache w = Holds v → is_list v = false →
  save_jobs jobs w = (Raise TypeError, set_cache Unreadable w)
  ∧ load_cache_or_demo (save_jobs jobs w).2 = Ok demo_jobs.
Proof.
  intros Hw Hc Hv.
  assert (save_jobs jobs w = (Raise TypeError, set_cache Unreadable w)) as ->.
  { unfold save_jobs, path_exists, json_load. rewrite Hw, Hc.
    by destruct v. }
  done.
Qed.

Lemma save_jobs_destroys_non_list_witness :
  save_jobs [numbered_job 1] dict_cached_world
  = (Raise TypeError, set_cache Unreadable dict_cached_world)
  ∧ load_cache_or_demo (save_jobs [numbered_job 1] dict_cached_world).2
    = Ok demo_jobs.
Proof.
  apply (save_jobs_destroys_non_list [numbered_job 1]
           (PDict [("jobs"%string, PList nine_jobs)]) dict_cached_world);
    reflexivity.
Defined.

Lemma parse_job_dict d :
  ∃ title company location salary description url posted,
    parse_job (PDict d)
    = Ok (job title company location salary description url posted)
    ∧ title = default PNone (assoc "job_title" d)
    ∧ (salary = PStr "" ∨ truthy salary = true).
Proof.
  eexists _, _, _, _, _, _, _. split; [reflexivity|]. split; [done|].
  unfold py_or. destruct (truthy (default PNone (assoc "job_min_salary" d))) eqn:E;
    auto.
Qed.

Lemma parse_job_not_dict j :
  is_dict j = false → parse_job j = Raise AttributeError.
Proof. by destruct j. Qed.


Lemma rmapM_parse_job_dicts items :
  forallb is_dict items = true →
  ∃ parsed, rmapM parse_job items = Ok parsed
            ∧ Forall2 (λ it p, parse_job it = Ok p) items parsed.
Proof.
  induction items as [|it items IH]; intros H.
  - exists []. by split.
  - apply andb_true_iff in H as [Hit Hitems].
    destruct (IH Hitems) as (parsed & Hp & Hall).
    destruct it as [| | | | | |d]; try done.
    destruct (parse_job_dict d)
      as (t & c & lo & sa & de & u & po & Hj & _).
    eexists (_ :: parsed). cbn [rmapM]. rewrite Hj, Hp. split; [done|].
    by constructor.
Qed.

Lemma rmapM_parse_job_not_dict items :
  forallb is_dict items = false →
  rmapM parse_job items = Raise AttributeError.
Proof.
  induction items as [|it items IH]; [done|]. cbn [forallb rmapM].
  destruct (is_dict it) eqn:Hit.
  - intros Hitems. destruct it as [| | | | | |d]; try done.
    destruct (parse_job_dict d)
      as (t & c & lo & sa & de & u & po & -> & _).
    cbn [rbind]. by rewrite (IH Hitems).
  - intros _. by rewrite (parse_job_not_dict it Hit).
Qed.

Lemma fetch_jobs_data q loc remote date_posted limit w key d :
  rapidapi_key w = Some key → key ≠ ""%string →
  jsearch w (build_request key q loc remote date_posted limit w)
  = Body (PDict d) →
  fetch_jobs q loc remote date_posted limit w
  = match (items ←! py_iter (default (PList []) (assoc "data" d)) ;;
           rmapM parse_job items) with
    | Raise e => (Raise e, w)
    | Ok parsed_jobs =>
        if truthy (PList parsed_jobs) then
          match save_jobs parsed_jobs w with
          | (Ok _, w') => (Ok (PList parsed_jobs), w')
          | (Raise e, w') => (Raise e, w')
          end
        else (Ok (PList []), w)
    end.
Proof.
  intros Hk Hne Hb. unfold fetch_jobs, fetch_try. rewrite Hk, Hb.
  by destruct (String.eqb_spec key "").
Qed.

(** A fetch that succeeds with records returns the parsed records, as
    many as the response has and in its order, not the accumulated
    cache, and appends them to the stored list. *)
Theorem fetch_jobs_returns_parsed q loc remote date_posted limit w key d items l :
  rapidapi_key w = Some key → key ≠ ""%string →
  jsearch w (build_request key q loc remote date_posted limit w)
  = Body (PDict d) →
  assoc "data" d = Some (PList items) →
  items ≠ [] → forallb is_dict items = true →
  can_write w = true → cache w = Holds (PList l) →
  ∃ parsed,
    fetch_jobs q loc remote date_posted limit w
    = (Ok (PList parsed), set_cache (Holds (PList (l ++ parsed))) w)
    ∧ Forall2 (λ it p, parse_job it = Ok p) items parsed
    ∧ length parsed = length items.
Proof.
  intros Hk Hne Hb Hd Hitems Hdict Hw Hc.
  rewrite (fetch_jobs_data _ _ _ _ _ _ key d Hk Hne Hb), Hd.
  destruct (rmapM_parse_job_dicts items Hdict) as (parsed & Hp & Hall).
  exists parsed. cbn [from_option id py_iter rbind]. rewrite Hp.
  assert (parsed ≠ []) as Hpne.
  { intros ->. apply Forall2_length in Hall. by destruct items. }
  cbn [truthy]. rewrite bool_decide_eq_false_2 by done. cbn [negb].
  rewrite (save_jobs_list parsed l w Hw Hc). split; [done|]. split; [done|].
  symmetry. by apply Forall2_length in Hall.
Qed.

Lemma fetch_jobs_returns_parsed_witness :
  ∃ parsed,
    fetch_jobs "Data Scientist" (Some "Pune"%string) false None 10
      one_result_world
    = (Ok (PList parsed),
       set_cache (Holds (PList (nine_jobs ++ parsed))) one_result_world)
    ∧ Forall2 (λ it p, parse_job it = Ok p) [raw_job] parsed
    ∧ length parsed = length [raw_job].
Proof.
  apply (fetch_jobs_returns_parsed
           "Data Scientist" (Some "Pune"%string) false None 10 one_result_world
           "secret" [("data"%string, PList [raw_job])] [raw_job] nine_jobs);
    try reflexivity; discriminate.
Defined.

(** A response that parses but is not a list of dicts is not caught: a
    [data] that is null, a boolean or a number raises [TypeError], and a
    list with an element that is not a dict raises [AttributeError]; in
    both cases nothing is saved. *)
Theorem fetch_jobs_raises_on_malformed_data
    q loc remote date_posted limit w key d data :
  rapidapi_key w = Some key → key ≠ ""%string →
  jsearch w (build_request key q loc remote date_posted limit w)
  = Body (PDict d) →
  assoc "data" d = Some data →
  (is_scalar data = true →
   fetch_jobs q loc remote date_posted limit w = (Raise TypeError, w))
  ∧ (∀ items, data = PList items → forallb is_dict items = false →
     fetch_jobs q loc remote date_posted limit w = (Raise AttributeError, w)).
Proof.
  intros Hk Hne Hb Hd.
  rewrite (fetch_jobs_data _ _ _ _ _ _ key d Hk Hne Hb), Hd.
  cbn [from_option id].
  split.
  - by destruct data.
  - intros items -> Hitems. cbn [py_iter rbind].
    by rewrite (rmapM_parse_job_not_dict items Hitems).
Qed.

Lemma fetch_jobs_raises_on_malformed_data_witness :
  (is_scalar PNone = true →
   fetch_jobs "Data Scientist" None false None 10 null_data_world
   = (Raise TypeError, null_data_world))
  ∧ (∀ items, PNone = PList items → forallb is_dict items = false →
     fetch_jobs "Data Scientist" None false None 10 null_data_world
     = (Raise AttributeError, null_data_world)).
Proof.
  apply (fetch_jobs_raises_on_malformed_data
           "Data Scientist" None false None 10 null_data_world
           "secret" [("data"%string, PNone)] PNone);
    try reflexivity; discriminate.
Defined.

(** What a fetch returned into an empty store is what the next
    [load_cache_or_demo] returns, when the fetch brought at most 8
    records. *)
Theorem fetch_then_load_round_trip
    q loc remote date_posted limit w key d items :
  rapidapi_key w = Some key → key ≠ ""%string →
  jsearch w (build_request key q loc remote date_posted limit w)
  = Body (PDict d) →
  assoc "data" d = Some (PList items) →
  items ≠ [] → (length items ≤ 8)%nat → forallb is_dict items = true →
  can_write w = true → empty_store w →
  ∃ parsed w',
    fetch_jobs q loc remote date_posted limit w = (Ok (PList parsed), w')
    ∧ load_cache_or_demo w' = Ok (PList parsed).
Proof.
  intros Hk Hne Hb Hd Hitems Hlen Hdict Hw He.
  rewrite (fetch_jobs_data _ _ _ _ _ _ key d Hk Hne Hb), Hd.
  destruct (rmapM_parse_job_dicts items Hdict) as (parsed & Hp & Hall).
  cbn [from_option id py_iter rbind]. rewrite Hp.
  apply Forall2_length in Hall.
  assert (parsed ≠ []) as Hpne.
  { intros ->. by destruct items. }
  cbn [truthy]. rewrite bool_decide_eq_false_2 by done. cbn [negb].
  rewrite (save_jobs_empty_store parsed w Hw He).
  eexists _, _. split; [done|].
  rewrite (load_cache_nonempty_list _ parsed); [|done|done].
  rewrite take_ge; [done|lia].
Qed.

Lemma fetch_then_load_round_trip_witness :
  ∃ parsed w',
    fetch_jobs "Data Scientist" None false None 10
      (World (Some "secret"%string) 3
         (λ _, Body (PDict [("data"%string, PList [raw_job])])) Missing true)
    = (Ok (PList parsed), w')
    ∧ load_cache_or_demo w' = Ok (PList parsed).
Proof.
  apply (fetch_then_load_round_trip "Data Scientist" None false None 10
           (World (Some "secret"%string) 3
              (λ _, Body (PDict [("data"%string, PList [raw_job])])) Missing true)
           "secret" [("data"%string, PList [raw_job])] [raw_job]);
    try reflexivity; try discriminate.
  - simpl. lia.
  - left. reflexivity.
Defined.



Lemma load_cache_result w :
  ∃ v, load_cache_or_demo w = Ok v ∧ truthy v = true
       ∧ ∀ l, v = PList l → (1 ≤ length l ≤ 8)%nat.
Proof.
  unfold load_cache_or_demo, load_cache_try, path_exists, json_load.
  assert (∀ l, demo_jobs = PList l → (1 ≤ length l ≤ 8)%nat) as Hdemo.
  { intros l [= <-]. simpl. lia. }
  destruct (cache w) as [| |v]; [by exists demo_jobs..|]. cbn [rbind].
  destruct (truthy v) eqn:Hv; [|by exists demo_jobs].
  destruct v as [| | | |s|l|d]; try by exists demo_jobs.
  - exists (PStr (String.substring 0 8 s)). split; [done|].
    split; [|done]. destruct s; [done|]. done.
  - exists (PList (take 8 l)). split; [done|].
    destruct l as [|x l]; [done|]. split; [done|].
    intros l' [= <-]. cbn [length]. rewrite length_take. lia.
Qed.

(** What [load_cache_or_demo] returns is never empty, and a list it
    returns has at least 1 and at most 8 records. *)
Theorem load_cache_or_demo_nonempty_at_most_8 w :
  ∃ v, load_cache_or_demo w = Ok v ∧ truthy v = true
       ∧ ∀ l, v = PList l → (1 ≤ length l ≤ 8)%nat.
Proof. apply load_cache_result. Qed.

(** The block of the front ends that fetches live jobs never raises and
    never ends with an empty list: an empty or failed fetch, whatever the
    exception, is replaced by [load_cache_or_demo]. *)
Theorem live_jobs_never_empty q loc remote date_posted limit w :
  ∃ v, (live_jobs q loc remote date_posted limit w).1 = Ok v
       ∧ truthy v = true.
Proof.
  unfold live_jobs.
  destruct (fetch_jobs q loc remote date_posted limit w) as [fetched w'].
  destruct (load_cache_result w') as (v & Hv & Ht & _).
  destruct fetched as [jobs|e]; cbn [rbind].
  - destruct (truthy jobs) eqn:Hj.
    + by exists jobs.
    + rewrite Hv. by exists v.
  - rewrite Hv. by exists v.
Qed.

Lemma get_cached_meta_list m l w :
  cache w = Holds (PList l) →
  get_cached_meta m w = Ok (Z.of_nat (length l), m).
Proof.
  intros Hc. unfold get_cached_meta, path_exists, json_load. by rewrite Hc.
Qed.

(** The count that [get_cached_meta] reports is the number of all the
    stored records, not of the 8 that [load_cache_or_demo] returns, and a
    [save_jobs] raises it by the number of records saved. *)
Theorem cached_count_grows_by_saved jobs l m m' w :
  can_write w = true → cache w = Holds (PList l) →
  get_cached_meta m w = Ok (Z.of_nat (length l), m)
  ∧ get_cached_meta m' (save_jobs jobs w).2
    = Ok (Z.of_nat (length l) + Z.of_nat (length jobs), m').
Proof.
  intros Hw Hc. split; [by apply get_cached_meta_list|].
  rewrite (save_jobs_list jobs l w Hw Hc). cbn [snd].
  rewrite (get_cached_meta_list m' (l ++ jobs)) by done.
  by rewrite length_app, Nat2Z.inj_add.
Qed.

Lemma cached_count_grows_by_saved_witness :
  get_cached_meta "2025-10-30 10:00:00" nine_cached_world
  = Ok (Z.of_nat (length nine_jobs), "2025-10-30 10:00:00"%string)
  ∧ get_cached_meta "2025-10-30 10:05:00"
      (save_jobs [numbered_job 9] nine_cached_world).2
    = Ok (Z.of_nat (length nine_jobs) + Z.of_nat (length [numbered_job 9]),
          "2025-10-30 10:05:00"%string).
Proof.
  apply (cached_count_grows_by_saved [numbered_job 9] nine_jobs
           "2025-10-30 10:00:00" "2025-10-30 10:05:00" nine_cached_world);
    reflexivity.
Defined.

(** [get_cached_meta] reports 0 and ["N/A"] without a file, 0 for a file
    that does not load, and raises [TypeError] for a file that holds
    null, a boolean or a number: the [len] is outside the [try]. *)
Theorem get_cached_meta_edges m w :
  (cache w = Missing → get_cached_meta m w = Ok (0, "N/A"%string))
  ∧ (cache w = Unreadable → get_cached_meta m w = Ok (0, m))
  ∧ (∀ v, cache w = Holds v → is_scalar v = true →
       get_cached_meta m w = Raise TypeError).
Proof.
  unfold get_cached_meta, path_exists, json_load. split_and!.
  - by intros ->.
  - by intros ->.
  - intros v -> Hv. by destruct v.
Qed.

(** The block that shows cached jobs honours the limit it is given; on a
    stored list that is not empty it agrees at limit 8 with
    [load_cache_or_demo], and on the stored empty list it gives the empty
    list where [load_cache_or_demo] gives the demo records. *)
Theorem cached_jobs_against_load k l w :
  cache w = Holds (PList l) → 0 ≤ k →
  cached_jobs k w = Ok (PList (take (Z.to_nat k) l))
  ∧ (l ≠ [] → cached_jobs 8 w = load_cache_or_demo w)
  ∧ (l = [] → cached_jobs k w = Ok (PList [])
              ∧ load_cache_or_demo w = Ok demo_jobs).
Proof.
  intros Hc Hk.
  assert (∀ k', 0 ≤ k' → cached_jobs k' w = Ok (PList (take (Z.to_nat k') l)))
    as Hcached.
  { intros k' Hk'. unfold cached_jobs, path_exists, json_load. rewrite Hc.
    cbn [rbind py_slice_to]. unfold slice_stop.
    by destruct (Z.ltb_spec k' 0); [lia|]. }
  split_and!.
  - by apply Hcached.
  - intros Hl. rewrite Hcached by lia.
    by rewrite (load_cache_nonempty_list w l).
  - intros ->. split; [by rewrite Hcached, take_nil|].
    unfold load_cache_or_demo, load_cache_try, path_exists, json_load.
    by rewrite Hc.
Qed.

Lemma cached_jobs_against_load_witness :
  cached_jobs 5 nine_cached_world = Ok (PList (take (Z.to_nat 5) nine_jobs))
  ∧ (nine_jobs ≠ [] →
     cached_jobs 8 nine_cached_world = load_cache_or_demo nine_cached_world)
  ∧ (nine_jobs = [] →
     cached_jobs 5 nine_cached_world = Ok (PList [])
     ∧ load_cache_or_demo nine_cached_world = Ok demo_jobs).
Proof.
  apply (cached_jobs_against_load 5 nine_jobs nine_cached_world);
    [reflexivity|lia].
Defined.

End scraper_more.

(** ** More about the extraction and the score *)

Section extraction_more.
Import Regex Describe DescribeMore ResumeParser PyNum Assistant.

Lemma letter_skills_list :
  letter_skills
  = ["python"; "java"; "machine learning"; "ml"; "data science"; "sql";
     "react"; "javascript"; "node"; "aws"; "docker"; "tensorflow";
     "pytorch"; "nlp"; "excel"; "tableau"]%string.
Proof. by vm_compute. Qed.

Lemma letter_skill_whole_word skill a b :
  skill ∈ letter_skills →
  whole_word a (chars skill) b
  = negb (word_opt (last a)) && negb (word_opt (head b)).
Proof.
  rewrite letter_skills_list. intros H.
  repeat (apply elem_of_cons in H as [->|H]); [..|by apply elem_of_nil in H];
    unfold whole_word; cbn;
    by destruct (word_opt (last a)), (word_opt (head b)).
Qed.

Lemma symbol_skill_whole_word skill a b :
  skill ∈ symbol_skills →
  whole_word a (chars skill) b
  = negb (word_opt (last a)) && word_opt (head b).
Proof.
  unfold symbol_skills. intros H.
  repeat (apply elem_of_cons in H as [->|H]); [..|by apply elem_of_nil in H];
    unfold whole_word; cbn;
    by destruct (word_opt (last a)), (word_opt (head b)).
Qed.

Lemma letter_skills_vocabulary skill :
  skill ∈ letter_skills → skill ∈ SKILL_KEYWORDS.
Proof. unfold letter_skills. by intros [_ ?]%list_elem_of_filter. Qed.

(** On an ASCII text, a skill of the vocabulary other than ["c++"] and
    ["c#"] is reported exactly when the lowered text has it with no
    letter, digit or underscore right before it or right after it. *)
Theorem letter_skill_reported_iff text f skill :
  is_ascii (chars text) = true →
  extract_resume_features text = Ok f →
  skill ∈ letter_skills →
  skill ∈ skills f
  ↔ ∃ a b, lower (chars text) = a ++ chars skill ++ b
           ∧ word_opt (last a) = false ∧ word_opt (head b) = false.
Proof.
  intros _ Hf Hs. rewrite (skill_reported_iff _ _ _ Hf). split.
  - intros [_ (a & b & Ht & Hw)]. exists a, b. split; [done|].
    rewrite (letter_skill_whole_word _ _ _ Hs) in Hw.
    by destruct (word_opt (last a)), (word_opt (head b)).
  - intros (a & b & Ht & Ha & Hb). split; [by apply letter_skills_vocabulary|].
    exists a, b. split; [done|].
    by rewrite (letter_skill_whole_word _ _ _ Hs), Ha, Hb.
Qed.

Lemma letter_skill_reported_iff_witness :
  "sql"%string ∈ skills (Features ["python"; "sql"]%string 0)
  ↔ ∃ a b, lower (chars "SQL and Python") = a ++ chars "sql" ++ b
           ∧ word_opt (last a) = false ∧ word_opt (head b) = false.
Proof.
  apply (letter_skill_reported_iff "SQL and Python"
           (Features ["python"; "sql"]%string 0) "sql").
  - by vm_compute.
  - by vm_compute.
  - rewrite letter_skills_list. by repeat constructor.
Defined.

(** On an ASCII text, ["c++"] and ["c#"] are reported exactly when the
    lowered text has them with no word character right before and with a
    letter, a digit or an underscore right after: never at the end of the
    text, nor before a space or a punctuation mark. *)
Theorem symbol_skill_reported_iff text f skill :
  is_ascii (chars text) = true →
  extract_resume_features text = Ok f →
  skill ∈ symbol_skills →
  skill ∈ skills f
  ↔ ∃ a b, lower (chars text) = a ++ chars skill ++ b
           ∧ word_opt (last a) = false ∧ word_opt (head b) = true.
Proof.
  intros _ Hf Hs. rewrite (skill_reported_iff _ _ _ Hf). split.
  - intros [_ (a & b & Ht & Hw)]. exists a, b. split; [done|].
    rewrite (symbol_skill_whole_word _ _ _ Hs) in Hw.
    by destruct (word_opt (last a)), (word_opt (head b)).
  - intros (a & b & Ht & Ha & Hb). split.
    + unfold symbol_skills in Hs. unfold SKILL_KEYWORDS.
      repeat (apply elem_of_cons in Hs as [->|Hs]);
        [by repeat constructor..|by apply elem_of_nil in Hs].
    + exists a, b. split; [done|].
      by rewrite (symbol_skill_whole_word _ _ _ Hs), Ha, Hb.
Qed.

Lemma symbol_skill_reported_iff_witness :
  "c#"%string ∈ skills (Features ["c#"]%string 0)
  ↔ ∃ a b, lower (chars "C#7 and more") = a ++ chars "c#" ++ b
           ∧ word_opt (last a) = false ∧ word_opt (head b) = true.
Proof.
  apply (symbol_skill_reported_iff "C#7 and more" (Features ["c#"]%string 0) "c#").
  - by vm_compute.
  - by vm_compute.
  - unfold symbol_skills. by repeat constructor.
Defined.

End extraction_more.

Section score_more.
Import Describe DescribeMore ResumeParser PyNum Assistant.

(** Every job skill is either matched or missing, never both; the
    matched skills are those both sides have. *)
Theorem matched_and_missing_partition res_features job_features f :
  score_features res_features job_features = Ok f →
  common_skills f ∪ missing_skills f = list_to_set (skills job_features)
  ∧ common_skills f ∩ missing_skills f = ∅
  ∧ ∀ s, s ∈ common_skills f
         ↔ s ∈ skills res_features ∧ s ∈ skills job_features.
Proof.
  unfold score_features.
  destruct (fit_percent_value _ _ _ _) as [p|e]; [|done].
  intros [= <-]. cbn [common_skills missing_skills]. split_and!.
  - apply set_eq. intros s. rewrite elem_of_union, elem_of_intersection,
      elem_of_difference.
    destruct (decide (s ∈ (list_to_set (skills res_features) : gset string)));
      tauto.
  - apply set_eq. intros s. rewrite elem_of_intersection,
      elem_of_intersection, elem_of_difference, elem_of_empty. tauto.
  - intros s. by rewrite elem_of_intersection, !elem_of_list_to_set.
Qed.

Lemma matched_and_missing_partition_witness :
  ∃ f, score_features resume_example job_example = Ok f
       ∧ common_skills f ∪ missing_skills f = list_to_set (skills job_example)
       ∧ common_skills f ∩ missing_skills f = ∅
       ∧ ∀ s, s ∈ common_skills f
              ↔ s ∈ skills resume_example ∧ s ∈ skills job_example.
Proof.
  destruct (score_features resume_example job_example) as [f|e] eqn:E.
  - exists f. split; [done|].
    exact (matched_and_missing_partition resume_example job_example f E).
  - exfalso. vm_compute in E. discriminate.
Defined.

Lemma fit_percent_value_zero d d' :
  d ≠ 0 → d' ≠ 0 → fit_percent_value 0 d 0 d' = Ok 0.
Proof.
  intros Hd Hd'. unfold fit_percent_value, int_truediv.
  destruct (Z.eqb_spec d 0); [done|]. destruct (Z.eqb_spec d' 0); [done|].
  cbn [Z.eqb rbind]. by destruct (d <? 0), (d' <? 0).
Qed.

(** With no skill in common and no experience the score is 0, whatever
    the job asks for. *)
Theorem fit_zero_without_overlap res_features job_features :
  (list_to_set (skills res_features) : gset string)
    ∩ list_to_set (skills job_features) = ∅ →
  experience res_features = 0 →
  job_fit_percent res_features job_features = Ok 0.
Proof.
  intros Hc Hx. unfold job_fit_percent, score_features. rewrite Hc, Hx.
  rewrite size_empty. cbn [Z.of_nat].
  rewrite fit_percent_value_zero; [done|..].
  - apply skills_denominator_nonzero.
  - apply xp_denominator_nonzero.
Qed.

Lemma fit_zero_without_overlap_witness :
  job_fit_percent (Features ["excel"]%string 0) job_example = Ok 0.
Proof.
  apply (fit_zero_without_overlap (Features ["excel"]%string 0) job_example).
  - by vm_compute.
  - reflexivity.
Defined.

Lemma forallb_elem_true {A} (f : A → bool) l x :
  forallb f l = true → x ∈ l → f x = true.
Proof.
  intros Hl Hx. apply list_elem_of_In in Hx.
  by apply (proj1 (forallb_forall f l) Hl).
Qed.

Lemma in_upto N x : 0 ≤ x ≤ Z.of_nat N → x ∈ upto N.
Proof.
  intros Hx. unfold upto. apply list_elem_of_fmap. exists (Z.to_nat x).
  split; [lia|]. apply list_elem_of_In, in_seq. lia.
Qed.

Lemma check_scores_skill_reps B :
  check_scores B = true → check_skill_reps = true.
Proof.
  unfold check_scores. intros H.
  apply andb_true_iff in H as [H _]. apply andb_true_iff in H as [H _].
  exact H.
Qed.

Lemma check_scores_xp_reps B :
  check_scores B = true → check_xp_reps B = true.
Proof.
  unfold check_scores. intros H.
  apply andb_true_iff in H as [H _]. apply andb_true_iff in H as [_ H].
  exact H.
Qed.

Lemma xp_reps_sound B u j :
  check_xp_reps B = true → 0 ≤ u ≤ Z.of_nat B → 0 ≤ j ≤ Z.of_nat B →
  xp_part u (or_1 j) = xp_part (xp_rep u (or_1 j)).1 (xp_rep u (or_1 j)).2.
Proof.
  intros H Hu Hj. unfold check_xp_reps in H.
  apply (forallb_elem_true _ _ u) in H; [|by apply in_upto].
  cbn beta in H.
  apply (forallb_elem_true _ _ j) in H; [|by apply in_upto].
  cbn beta in H. destruct (xp_rep u (or_1 j)) as [u0 j0].
  apply andb_true_iff in H as [H _]. apply andb_true_iff in H as [_ H].
  apply bool_decide_eq_true in H. exact H.
Qed.

Lemma skill_reps_sound c n :
  check_skill_reps = true → 0 ≤ c ≤ n → n ≤ 18 →
  skill_part c (or_1 n)
  = skill_part (reduce c (or_1 n)).1 (reduce c (or_1 n)).2.
Proof.
  intros H Hc Hn. unfold check_skill_reps in H.
  apply (forallb_elem_true _ _ n) in H; [|apply in_upto; lia].
  cbn beta in H.
  apply (forallb_elem_true _ _ c) in H; [|apply in_upto; lia].
  cbn beta in H. destruct (reduce c (or_1 n)) as [c0 n0].
  apply andb_true_iff in H as [H _]. apply andb_true_iff in H as [_ H].
  apply bool_decide_eq_true in H. exact H.
Qed.

(** The years up to 60 count as the pair that stands for them. *)
Lemma xp_part_rep u j :
  0 ≤ u ≤ 60 → 0 ≤ j ≤ 60 →
  xp_part u (or_1 j) = xp_part (xp_rep u (or_1 j)).1 (xp_rep u (or_1 j)).2.
Proof.
  intros Hu Hj.
  exact (xp_reps_sound 60 u j (check_scores_xp_reps 60 check_scores_60)
           ltac:(lia) ltac:(lia)).
Qed.

Lemma skill_part_rep c n :
  0 ≤ c ≤ n → n ≤ 18 →
  skill_part c (or_1 n)
  = skill_part (reduce c (or_1 n)).1 (reduce c (or_1 n)).2.
Proof.
  intros Hc Hn.
  exact (skill_reps_sound c n (check_scores_skill_reps 60 check_scores_60)
           Hc Hn).
Qed.

Lemma reduce_diag n : 1 ≤ n → reduce n n = (1, 1).
Proof.
  intros Hn. unfold reduce. rewrite Z.gcd_diag, Z.abs_eq by lia.
  by rewrite Z.div_same by lia.
Qed.

(** Meeting the requirement exactly and exceeding it give the same sum. *)
Lemma total_met_or_exceeded c n :
  total (skill_part c n) (xp_part 1 1) = total (skill_part c n) (xp_part 2 1).
Proof.
  unfold skill_part. destruct (int_truediv c n) as [cov|e]; [|done].
  cbn [rbind]. unfold py_mul. cbn [to_float rbind].
  by destruct (float_of_int 70).
Qed.

Lemma or_1_range j : 0 ≤ j → 1 ≤ or_1 j ∧ j ≤ or_1 j.
Proof. intros Hj. unfold or_1. destruct (Z.eqb_spec j 0); lia. Qed.

Lemma xp_part_capped u j :
  0 ≤ j ≤ 60 → or_1 j ≤ u ≤ 60 →
  ∀ c n, total (skill_part c n) (xp_part u (or_1 j))
         = total (skill_part c n) (xp_part 2 1).
Proof.
  intros Hj Hu c n. pose proof (or_1_range j) as Hor.
  rewrite xp_part_rep by lia.
  unfold xp_rep. destruct (Z.ltb_spec (or_1 j) u); [done|].
  assert (u = or_1 j) as -> by lia.
  rewrite reduce_diag by lia.
  apply total_met_or_exceeded.
Qed.

Lemma job_fit_percent_total res_features job_features :
  job_fit_percent res_features job_features
  = total
      (skill_part
         (Z.of_nat (size ((list_to_set (skills res_features) : gset string)
                            ∩ list_to_set (skills job_features))))
         (or_1 (Z.of_nat (length (skills job_features)))))
      (xp_part (experience res_features) (or_1 (experience job_features))).
Proof.
  unfold job_fit_percent, score_features.
  change (skills_denominator job_features)
    with (or_1 (Z.of_nat (length (skills job_features)))).
  change (xp_denominator job_features) with (or_1 (experience job_features)).
  rewrite fit_percent_value_parts. by destruct (total _ _).
Qed.

(** Experience beyond what the job asks for earns nothing: with the same
    skills, any two numbers of years from the requirement up to 60 give
    the same score. *)
Theorem fit_capped_at_requirement res_features res_features' job_features :
  skills res_features = skills res_features' →
  0 ≤ experience job_features ≤ 60 →
  xp_denominator job_features ≤ experience res_features ≤ 60 →
  xp_denominator job_features ≤ experience res_features' ≤ 60 →
  job_fit_percent res_features job_features
  = job_fit_percent res_features' job_features.
Proof.
  intros Hs Hj Hu Hu'. rewrite !job_fit_percent_total, Hs.
  by rewrite !xp_part_capped.
Qed.

Lemma fit_capped_at_requirement_witness :
  job_fit_percent resume_example job_example
  = job_fit_percent (Features ["python"; "sql"]%string 40) job_example.
Proof.
  apply (fit_capped_at_requirement resume_example
           (Features ["python"; "sql"]%string 40) job_example);
    [reflexivity|by vm_compute..].
Defined.

Lemma total_full : total (skill_part 1 1) (xp_part 2 1) = Ok 100.
Proof. by vm_compute. Qed.

(** A resume that has every skill the job lists and at least the years
    it asks for scores 100. *)
Theorem fit_100_when_requirements_met res_features job_features :
  NoDup (skills job_features) →
  skills job_features ⊆ SKILL_KEYWORDS →
  skills job_features ≠ [] →
  skills job_features ⊆ skills res_features →
  0 ≤ experience job_features ≤ 60 →
  xp_denominator job_features ≤ experience res_features ≤ 60 →
  job_fit_percent res_features job_features = Ok 100.
Proof.
  intros Hnd Hvoc Hne Hsub Hj Hu.
  rewrite job_fit_percent_total, xp_part_capped by done.
  assert ((list_to_set (skills res_features) : gset string)
            ∩ list_to_set (skills job_features)
          = list_to_set (skills job_features)) as ->.
  { apply set_eq. intros s.
    rewrite elem_of_intersection, !elem_of_list_to_set.
    split; [tauto|]. intros Hs. split; [by apply Hsub|done]. }
  rewrite size_list_to_set by done.
  set (n := Z.of_nat (length (skills job_features))).
  assert (1 ≤ n ≤ 18) as Hn.
  { subst n. split.
    - destruct (skills job_features); [done|simpl; lia].
    - apply (NoDup_submseteq _ _ Hnd) in Hvoc.
      apply submseteq_length in Hvoc. simpl in Hvoc. lia. }
  assert (or_1 n = n) as Hor by (unfold or_1; destruct (Z.eqb_spec n 0); lia).
  rewrite <- Hor at 1. rewrite skill_part_rep by lia.
  rewrite Hor, reduce_diag by lia. apply total_full.
Qed.

Lemma fit_100_when_requirements_met_witness :
  job_fit_percent (Features ["aws"; "python"; "sql"]%string 5) job_example
  = Ok 100.
Proof.
  apply (fit_100_when_requirements_met
           (Features ["aws"; "python"; "sql"]%string 5) job_example).
  - apply (bool_decide_unpack _). by vm_compute.
  - apply (bool_decide_unpack _). by vm_compute.
  - discriminate.
  - apply (bool_decide_unpack _). by vm_compute.
  - by vm_compute.
  - by vm_compute.
Defined.

End score_more.

Section analysis_more.
Import Regex Describe DescribeMore ResumeParser PyNum Assistant Prompts.

Lemma extracted_features_wf text f :
  extract_resume_features text = Ok f →
  NoDup (skills f) ∧ skills f ⊆ SKILL_KEYWORDS ∧ 0 ≤ experience f.
Proof.
  intros ->%extract_resume_features_inv. cbn [skills experience].
  split_and!.
  - rewrite merge_sort_Permutation. apply NoDup_elements.
  - intros skill Hs. by apply skills_elem in Hs as [? _].
  - destruct (decide (xp_values (lower (chars text)) = [])) as [->|Hne];
      [done|].
    apply (xp_values_nonneg (lower (chars text))).
    by apply py_max_default_elem.
Qed.

(** From the two texts to the score: when neither text mentions more
    than 60 years, [analyze_job_fit] computes a score, and the score is a
    percentage; the years of the job it divides by are at least 1. *)
Theorem analyze_job_fit_is_a_percentage
    resume_text job_description res_features job_features :
  extract_resume_features resume_text = Ok res_features →
  extract_resume_features job_description = Ok job_features →
  experience res_features ≤ 60 →
  experience job_features ≤ 60 →
  ∃ f, analyze_job_fit resume_text job_description = Ok f
       ∧ 0 ≤ fit_percent f ≤ 100
       ∧ xp_user f = experience res_features
       ∧ 1 ≤ xp_job f.
Proof.
  intros Hr Hj Hu Hx. unfold analyze_job_fit. rewrite Hr, Hj. cbn [rbind].
  destruct (extracted_features_wf _ _ Hr) as (_ & _ & Hu0).
  destruct (extracted_features_wf _ _ Hj) as (Hnd & Hsub & Hx0).
  destruct (job_skills_counts res_features job_features Hnd Hsub) as [Hc Hn].
  unfold score_features.
  change (skills_denominator job_features)
    with (or_1 (Z.of_nat (length (skills job_features)))).
  change (xp_denominator job_features) with (or_1 (experience job_features)).
  destruct (check_scores_sound 60 _ _ (experience res_features)
              (experience job_features) check_scores_60 Hc Hn)
    as (p & -> & Hp); [lia|lia|].
  eexists. split; [done|]. cbn [fit_percent xp_user xp_job].
  unfold within in Hp. pose proof (or_1_range (experience job_features) Hx0).
  lia.
Qed.

Lemma analyze_job_fit_is_a_percentage_witness :
  ∃ f, analyze_job_fit
         "5 years of experience in Python, SQL, and React. Worked on ML projects."
         "Looking for a Data Scientist with Python, ML, SQL, and 3+ years experience."
       = Ok f
       ∧ 0 ≤ fit_percent f ≤ 100
       ∧ xp_user f = experience (Features ["ml"; "python"; "react"; "sql"]%string 5)
       ∧ 1 ≤ xp_job f.
Proof.
  apply (analyze_job_fit_is_a_percentage
           "5 years of experience in Python, SQL, and React. Worked on ML projects."
           "Looking for a Data Scientist with Python, ML, SQL, and 3+ years experience."
           (Features ["ml"; "python"; "react"; "sql"]%string 5)
           (Features ["ml"; "python"; "sql"]%string 3)).
  - by vm_compute.
  - by vm_compute.
  - by vm_compute.
  - by vm_compute.
Defined.

Lemma append_nonempty_r (s1 s2 : string) : s2 ≠ ""%string → s1 +:+ s2 ≠ ""%string.
Proof. destruct s1; [done|]. intros _. discriminate. Qed.

Lemma py_join_empty_iff l :
  py_join ", " l = ""%string ↔ l = [] ∨ l = [""%string].
Proof.
  destruct l as [|x [|y l]]; cbn [py_join].
  - split; auto.
  - split; [intros ->; auto|]. by intros [?|[= ->]].
  - split.
    + intros H. exfalso. revert H. apply append_nonempty_r. discriminate.
    + by intros [?|?].
Qed.

(** The skills handed to the interview trainer are those detected in
    the job description: the prompt names the default phrase exactly when
    none is detected, and the detected skills separated by commas
    otherwise. *)
Theorem interview_skill_str text f :
  extract_resume_features text = Ok f →
  skill_str (skills f)
  = if bool_decide (skills f = [])
    then "general technical and behavioral skills"%string
    else py_join ", " (skills f).
Proof.
  intros Hf. destruct (extracted_features_wf _ _ Hf) as (_ & Hsub & _).
  unfold skill_str. case_bool_decide as Hnil.
  - by rewrite Hnil.
  - destruct (String.eqb_spec (py_join ", " (skills f)) "") as [He|]; [|done].
    apply py_join_empty_iff in He as [?|He]; [done|].
    exfalso. assert (""%string ∈ SKILL_KEYWORDS) as Hin.
    { apply Hsub. rewrite He. left. }
    unfold SKILL_KEYWORDS in Hin.
    repeat (apply elem_of_cons in Hin as [Hin|Hin]; [discriminate|]).
    by apply elem_of_nil in Hin.
Qed.

Lemma interview_skill_str_witness :
  skill_str (skills (Features ["python"; "sql"]%string 0))
  = if bool_decide (skills (Features ["python"; "sql"]%string 0) = [])
    then "general technical and behavioral skills"%string
    else py_join ", " (skills (Features ["python"; "sql"]%string 0)).
Proof.
  apply (interview_skill_str "SQL and Python").
  by vm_compute.
Defined.

Lemma append_cons c (s1 s2 : string) :
  String c s1 +:+ s2 = String c (s1 +:+ s2).
Proof. reflexivity. Qed.

Lemma append_nil (s : string) : ""%string +:+ s = s.
Proof. reflexivity. Qed.

Lemma length_append (s1 s2 : string) :
  String.length (s1 +:+ s2) = (String.length s1 + String.length s2)%nat.
Proof.
  induction s1 as [|c s1 IH]; [done|].
  rewrite append_cons. cbn [String.length]. by rewrite IH.
Qed.

Lemma length_substring_0 n s :
  String.length (String.substring 0 n s) = Nat.min n (String.length s).
Proof.
  revert s. induction n as [|n IH]; intros [|c s]; try done.
  cbn. by rewrite IH.
Qed.

Lemma substring_0_append n (s e : string) :
  (n ≤ String.length s)%nat →
  String.substring 0 n (s +:+ e) = String.substring 0 n s.
Proof.
  revert s. induction n as [|n IH]; intros [|c s] Hn;
    cbn [String.length] in Hn; try lia.
  - rewrite append_nil. by destruct e.
  - by rewrite append_cons.
  - rewrite append_cons. cbn [String.substring]. rewrite IH; [done|lia].
Qed.

Lemma substring_0_all n s :
  (String.length s ≤ n)%nat → String.substring 0 n s = s.
Proof.
  revert s. induction n as [|n IH]; intros [|c s] Hn; cbn in *; try done.
  - lia.
  - rewrite IH; [done|lia].
Qed.

(** The prompt of [enhance_resume] carries the first 4000 characters of
    the resume and no more: its length is that of the title plus at most
    4000 plus the 300 characters of the fixed text, a resume of at most
    4000 characters is in it whole, and what follows the first 4000
    characters of a resume does not change it. *)
Theorem enhance_resume_prompt_truncates resume_text job_title :
  String.length (enhance_resume_prompt resume_text job_title)
  = (300 + String.length job_title
     + Nat.min 4000 (String.length resume_text))%nat
  ∧ ((String.length resume_text ≤ 4000)%nat →
     enhance_resume_prompt resume_text job_title
     = enhance_head +:+ job_title +:+ enhance_body +:+ resume_text +:+ nl)
  ∧ ∀ more, (4000 ≤ String.length resume_text)%nat →
            enhance_resume_prompt (resume_text +:+ more) job_title
            = enhance_resume_prompt resume_text job_title.
Proof.
  unfold enhance_resume_prompt. split_and!.
  - rewrite !length_append, length_substring_0.
    change (String.length enhance_head) with 68%nat.
    change (String.length enhance_body) with 231%nat.
    change (String.length nl) with 1%nat. lia.
  - intros Hlen. by rewrite substring_0_all.
  - intros more Hlen. by rewrite substring_0_append.
Qed.

End analysis_more.
